(** * hydroxide / protonmail: the request and authentication core

    A shallow embedding of [protonmail/protonmail.go]: the credential
    state of the client, the request builder, the transport executor with
    its re-authentication retry, and the JSON response decoder.

    Go strings are byte sequences and are modelled by [string] (a list of
    8-bit [ascii]); byte slices and byte streams are [list byte].  The Go
    [int] of the response envelope is a [Z] kept inside the 64-bit range by
    the decoder.  The pieces of the Go standard library that the file
    calls ([net/url], [net/http], [encoding/json]) are modelled in the
    modules [url], [http] and [json] below, as far as the client uses
    them. *)

From Stdlib Require Import ZArith NArith String Ascii List Bool Lia DecimalString DecimalZ.
From Stdlib.Strings Require Import Byte.
From stdpp Require Import gmap strings list.

Open Scope Z_scope.

Set Warnings "-register-all".

(** ** Go strings *)

Module gostring.

Definition code (a : ascii) : N := N_of_ascii a.

Definition between (lo hi : N) (a : ascii) : bool :=
  ((lo <=? code a) && (code a <=? hi))%N.

Fixpoint map (f : ascii -> ascii) (s : string) : string :=
  match s with
  | EmptyString => EmptyString
  | String a r => String (f a) (map f r)
  end.

Fixpoint filter (p : ascii -> bool) (s : string) : string :=
  match s with
  | EmptyString => EmptyString
  | String a r => if p a then String a (filter p r) else filter p r
  end.

Fixpoint all (p : ascii -> bool) (s : string) : bool :=
  match s with
  | EmptyString => true
  | String a r => p a && all p r
  end.

Fixpoint any (p : ascii -> bool) (s : string) : bool :=
  match s with
  | EmptyString => false
  | String a r => p a || any p r
  end.

(** [s == ""] *)
Definition is_empty (s : string) : bool :=
  match s with EmptyString => true | String _ _ => false end.

(** The double quote character, byte 0x22. *)
Definition dquote : ascii := ascii_of_N 34.

End gostring.

(** ** [net/url]: query escaping *)

Module url.
Import gostring.

Definition upperhex : string := "0123456789ABCDEF".

Definition hexdigit (n : N) : ascii :=
  match String.get (N.to_nat n) upperhex with
  | Some a => a
  | None => "0"%char
  end.

(** [shouldEscape(c, encodeQueryComponent)]: the unreserved characters of
    RFC 3986 (letters, digits and [-_.~]) are kept, every other byte is
    escaped. *)
Definition shouldEscape (c : ascii) : bool :=
  if between 97 122 c || between 65 90 c || between 48 57 c then false
  else if (code c =? 45)%N || (code c =? 95)%N
          || (code c =? 46)%N || (code c =? 126)%N then false
  else true.

(** [url.QueryEscape]: a space becomes [+], every other escaped byte
    becomes [%XX] with upper-case hexadecimal digits. *)
Fixpoint QueryEscape (s : string) : string :=
  match s with
  | EmptyString => EmptyString
  | String c r =>
      if shouldEscape c then
        if (code c =? 32)%N then String "+"%char (QueryEscape r)
        else String "%"%char
               (String (hexdigit (N.shiftr (code c) 4))
                  (String (hexdigit (N.land (code c) 15)) (QueryEscape r)))
      else String c (QueryEscape r)
  end.

End url.

(** ** Errors

    [RawAPIError] and [APIError] are the two error records of the source.
    A Go [error] value seen by this file is an [*APIError], an error of
    [encoding/json] (or of the stream it reads), or an error made by a
    collaborator: the transport, the re-authentication hook, a replay
    function or [http.NewRequest]. *)

Module RawAPIError.
Record t : Type := mk { Message : string }.
End RawAPIError.

Module APIError.
Record t : Type := mk { Code : Z; Message : string }.
End APIError.

Inductive error : Type :=
| ErrAPI (e : APIError.t)
| ErrJSON (what : string)
| ErrExternal (what : string).

Definition isAPIError (e : error) : bool :=
  match e with ErrAPI _ => true | _ => false end.

(** ** [net/http]: headers, cookies, requests and responses *)

Module http.
Import gostring.

Definition StatusUnauthorized : Z := 401.

(** [http.Header] is a [map[string][]string].  [Set] and [Get] first
    bring the key to its canonical MIME form; every key used by the
    client is written in that form already, so the key is used as it
    is. *)
Definition Header_Set (h : gmap string (list string)) (key value : string)
  : gmap string (list string) :=
  <[key := [value]]> h.

Definition Header_Get (h : gmap string (list string)) (key : string) : string :=
  match h !! key with
  | Some (v :: _) => v
  | _ => ""%string
  end.

(** The fields of [http.Cookie] that the client fills in. *)
Record Cookie : Type := mkCookie { Name : string; Value : string }.

(** [cookieNameSanitizer]: line breaks in a name become dashes. *)
Definition sanitizeCookieName (n : string) : string :=
  map (fun a => if (code a =? 10)%N || (code a =? 13)%N then "-"%char else a) n.

Definition validCookieValueByte (a : ascii) : bool :=
  (32 <=? code a)%N && (code a <? 127)%N
  && negb (code a =? 34)%N && negb (code a =? 59)%N && negb (code a =? 92)%N.

(** [sanitizeCookieValue]: bytes that are not valid in a cookie value
    are dropped; a value holding a space or a comma is put between
    double quotes. *)
Definition sanitizeCookieValue (v : string) : string :=
  let v := filter validCookieValueByte v in
  if is_empty v then v
  else if any (fun a => (code a =? 32)%N || (code a =? 44)%N) v
       then String dquote (v +:+ String dquote EmptyString)
       else v.

(** A body stream: the bytes not read yet, and whether it was closed. *)
Record ReadCloser : Type := mkReadCloser { unread : list byte; closed : bool }.

Definition NopCloser (b : list byte) : ReadCloser :=
  {| unread := b; closed := false |}.

Definition Close (rc : ReadCloser) : ReadCloser :=
  {| unread := unread rc; closed := true |}.

(** The [io.Reader] handed to [http.NewRequest]: a [*bytes.Reader], for
    which the library installs a replay function, or any other stream,
    for which it does not. *)
Inductive Reader : Type :=
| BytesReader (b : list byte)
| StreamReader (b : list byte).

(** The fields of [http.Request] that the client reads or writes.  [URL]
    is the string the request was made from: the library keeps the URL in
    parsed form, and the text it prints for it may differ from this string
    by escaping. *)
Record Request : Type := mkRequest {
  Method : string;
  URL : string;
  Header : gmap string (list string);
  Body : option ReadCloser;
  GetBody : option (unit -> ReadCloser + error)
}.

Definition set_Header (req : Request) (h : gmap string (list string)) : Request :=
  {| Method := Method req; URL := URL req; Header := h;
     Body := Body req; GetBody := GetBody req |}.

Definition set_Body (req : Request) (b : option ReadCloser) : Request :=
  {| Method := Method req; URL := URL req; Header := Header req;
     Body := b; GetBody := GetBody req |}.

Definition set_GetBody (req : Request) (g : option (unit -> ReadCloser + error))
  : Request :=
  {| Method := Method req; URL := URL req; Header := Header req;
     Body := Body req; GetBody := g |}.

(** [req.Header.Set(key, value)] *)
Definition Request_SetHeader (req : Request) (key value : string) : Request :=
  set_Header req (Header_Set (Header req) key value).

(** [req.AddCookie(c)]: all cookies share one [Cookie] header line, a
    further cookie is appended after [; ]. *)
Definition AddCookie (req : Request) (c : Cookie) : Request :=
  let s := sanitizeCookieName (Name c) +:+ "=" +:+ sanitizeCookieValue (Value c) in
  let line := Header_Get (Header req) "Cookie" in
  if is_empty line
  then Request_SetHeader req "Cookie" s
  else Request_SetHeader req "Cookie" (line +:+ "; " +:+ s).

Record Response : Type := mkResponse {
  StatusCode : Z;
  RespBody : ReadCloser;
  (** what [resp.Cookies()] reads from the [Set-Cookie] headers *)
  Cookies : list Cookie
}.

Definition CloseBody (resp : Response) : Response :=
  {| StatusCode := StatusCode resp; RespBody := Close (RespBody resp);
     Cookies := Cookies resp |}.

(** [http.NewRequest].  [check] stands for the validation of the method
    and of the URL, which fails with an error or passes. *)
Definition NewRequest (check : string -> string -> option error)
    (method url : string) (body : option Reader) : Request + error :=
  match check method url with
  | Some err => inr err
  | None =>
      inl {| Method := if is_empty method then "GET"%string else method;
             URL := url;
             Header := ∅;
             Body := match body with
                     | None => None
                     | Some (BytesReader b) | Some (StreamReader b) =>
                         Some (NopCloser b)
                     end;
             GetBody := match body with
                        | Some (BytesReader b) => Some (fun _ => inl (NopCloser b))
                        | _ => None
                        end |}
  end.

End http.

(** ** [encoding/json]: reading one value from a stream

    [Decoder.Decode] scans the stream up to the end of the first JSON
    value and leaves the rest unread.  The scanner below is the state
    machine of the library with the value under construction kept in its
    parse stack, so that one pass over the bytes both validates and builds
    the value.  Objects keep their members in the order of the text,
    duplicates included. *)

Module json.

Inductive value : Type :=
| JNull
| JBool (b : bool)
| JNumber (lit : string)
| JString (s : string)
| JArray (elems : list value)
| JObject (members : list (string * value)).

Definition num (c : byte) : N := Byte.to_N c.

Definition byte_of (n : N) : byte :=
  match Byte.of_N n with Some b => b | None => x00 end.

Definition isSpace (c : byte) : bool :=
  Byte.eqb c " " || Byte.eqb c x09 || Byte.eqb c x0d || Byte.eqb c x0a.

Definition isDigit (c : byte) : bool := ((48 <=? num c) && (num c <=? 57))%N.

Definition isHex (c : byte) : bool :=
  isDigit c || ((97 <=? num c) && (num c <=? 102))%N
            || ((65 <=? num c) && (num c <=? 70))%N.

Definition hexval (c : byte) : N :=
  if isDigit c then num c - 48
  else if (97 <=? num c)%N then num c - 87
  else num c - 55.

(** *** Unquoting a string literal *)

Definition getu4 (a b c d : byte) : N :=
  (hexval a * 4096 + hexval b * 256 + hexval c * 16 + hexval d)%N.

Definition isSurrogate (r : N) : bool := ((55296 <=? r) && (r <? 57344))%N.

(** [utf8.EncodeRune]; surrogates and values past U+10FFFF are written
    as U+FFFD. *)
Definition EncodeRune (r : N) : list byte :=
  if (r <? 128)%N then [byte_of r]
  else if (r <? 2048)%N then
    [byte_of (192 + N.shiftr r 6); byte_of (128 + N.land r 63)]
  else if isSurrogate r || (1114111 <? r)%N then [xef; xbf; xbd]
  else if (r <? 65536)%N then
    [byte_of (224 + N.shiftr r 12);
     byte_of (128 + N.land (N.shiftr r 6) 63);
     byte_of (128 + N.land r 63)]
  else
    [byte_of (240 + N.shiftr r 18);
     byte_of (128 + N.land (N.shiftr r 12) 63);
     byte_of (128 + N.land (N.shiftr r 6) 63);
     byte_of (128 + N.land r 63)].

(** [utf16.DecodeRune]: the code point of a surrogate pair, if [r1] and
    [r2] form one. *)
Definition DecodeSurrogates (r1 r2 : N) : option N :=
  if ((55296 <=? r1) && (r1 <? 56320) && (56320 <=? r2) && (r2 <? 57344))%N
  then Some (N.shiftl (r1 - 55296) 10 + (r2 - 56320) + 65536)%N
  else None.

Definition cont (c : byte) : bool := ((128 <=? num c) && (num c <=? 191))%N.

Definition inr_ (lo hi : N) (c : byte) : bool := ((lo <=? num c) && (num c <=? hi))%N.

(** [unquoteBytes] on the text between the quotes.  Escapes are
    replaced by the bytes they stand for; a well-formed UTF-8 sequence
    is copied and any other byte from 0x80 on is replaced by U+FFFD. *)
Fixpoint unquote (s : list byte) : list byte :=
  match s with
  | [] => []
  | c :: rest =>
      if Byte.eqb c "\" then
        match rest with
        | [] => []
        | e :: rest1 =>
            if Byte.eqb e "u" then
              match rest1 with
              | h1 :: h2 :: h3 :: h4 :: rest2 =>
                  let rr := getu4 h1 h2 h3 h4 in
                  if isSurrogate rr then
                    match rest2 with
                    | b :: u :: g1 :: g2 :: g3 :: g4 :: rest3 =>
                        if Byte.eqb b "\" && Byte.eqb u "u"
                           && isHex g1 && isHex g2 && isHex g3 && isHex g4 then
                          match DecodeSurrogates rr (getu4 g1 g2 g3 g4) with
                          | Some r => EncodeRune r ++ unquote rest3
                          | None => [xef; xbf; xbd] ++ unquote rest2
                          end
                        else [xef; xbf; xbd] ++ unquote rest2
                    | _ => [xef; xbf; xbd] ++ unquote rest2
                    end
                  else EncodeRune rr ++ unquote rest2
              | _ => []
              end
            else if Byte.eqb e "b" then x08 :: unquote rest1
            else if Byte.eqb e "f" then x0c :: unquote rest1
            else if Byte.eqb e "n" then x0a :: unquote rest1
            else if Byte.eqb e "r" then x0d :: unquote rest1
            else if Byte.eqb e "t" then x09 :: unquote rest1
            else e :: unquote rest1
        end
      else if (num c <? 128)%N then c :: unquote rest
      else
        match rest with
        | c1 :: rest1 =>
            if inr_ 194 223 c && cont c1 then c :: c1 :: unquote rest1
            else
              match rest1 with
              | c2 :: rest2 =>
                  if (Byte.eqb c xe0 && inr_ 160 191 c1
                      || (inr_ 225 236 c || inr_ 238 239 c) && cont c1
                      || Byte.eqb c xed && inr_ 128 159 c1) && cont c2
                  then c :: c1 :: c2 :: unquote rest2
                  else
                    match rest2 with
                    | c3 :: rest3 =>
                        if (Byte.eqb c xf0 && inr_ 144 191 c1
                            || inr_ 241 243 c && cont c1
                            || Byte.eqb c xf4 && inr_ 128 143 c1)
                           && cont c2 && cont c3
                        then c :: c1 :: c2 :: c3 :: unquote rest3
                        else [xef; xbf; xbd] ++ unquote rest
                    | [] => [xef; xbf; xbd] ++ unquote rest
                    end
              | [] => [xef; xbf; xbd] ++ unquote rest
              end
        | [] => [xef; xbf; xbd]
        end
  end.

(** *** The scanner *)

(** What the value being read belongs to: the stream itself, an array
    with the elements read so far, or an object with the members read so
    far, either while its next key is read or while the value of [key]
    is read.  Elements and members are kept last first. *)
Inductive context : Type :=
| Top
| InArray (done : list value) (up : context)
| InKey (done : list (string * value)) (up : context)
| InMember (done : list (string * value)) (key : string) (up : context).

Inductive numstate : Type :=
| NNeg | N0 | N1 | NDot | NDot0 | NE | NESign | NE0.

Inductive state : Type :=
| BeginValue (k : context)
| BeginValueOrEmpty (up : context)
| BeginStringOrEmpty (up : context)
| BeginString (done : list (string * value)) (up : context)
| InString (raw : list byte) (k : context)
| InStringEsc (raw : list byte) (k : context)
| InStringEscU (n : nat) (raw : list byte) (k : context)
| InNumber (ns : numstate) (lit : list byte) (k : context)
| InLiteral (rest : list byte) (v : value) (k : context)
| AfterElement (done : list value) (up : context)
| AfterMember (done : list (string * value)) (up : context)
| AfterKey (done : list (string * value)) (key : string) (up : context).

Inductive result : Type :=
| Continue (st : state)
| Finished (v : value)
| Invalid.

(** A complete value goes to the context it was read in. *)
Definition deliver (v : value) (k : context) : result :=
  match k with
  | Top => Finished v
  | InArray done up => Continue (AfterElement (v :: done) up)
  | InMember done key up => Continue (AfterMember ((key, v) :: done) up)
  | InKey done up =>
      match v with
      | JString s => Continue (AfterKey done s up)
      | _ => Invalid
      end
  end.

(** [stateEndValue]: what may follow a value inside a container. *)
Definition stepEndValue (st : state) (c : byte) : result :=
  match st with
  | AfterElement done up =>
      if isSpace c then Continue st
      else if Byte.eqb c "," then Continue (BeginValue (InArray done up))
      else if Byte.eqb c "]" then deliver (JArray (rev done)) up
      else Invalid
  | AfterMember done up =>
      if isSpace c then Continue st
      else if Byte.eqb c "," then Continue (BeginString done up)
      else if Byte.eqb c "}" then deliver (JObject (rev done)) up
      else Invalid
  | AfterKey done key up =>
      if isSpace c then Continue st
      else if Byte.eqb c ":" then Continue (BeginValue (InMember done key up))
      else Invalid
  | _ => Invalid
  end.

(** The number of objects and arrays that are open in a context. *)
Fixpoint depth (k : context) : N :=
  match k with
  | Top => 0
  | InArray _ up | InKey _ up | InMember _ _ up => (depth up + 1)%N
  end.

(** The scanner refuses a value nested deeper than this. *)
Definition maxNestingDepth : N := 10000.

(** [stateBeginValue] on a byte that is not white space.  Opening an
    object or an array pushes a parse state, which fails past the nesting
    limit. *)
Definition beginValue (k : context) (c : byte) : result :=
  if Byte.eqb c "{" then
    if (maxNestingDepth <? depth k + 1)%N then Invalid
    else Continue (BeginStringOrEmpty k)
  else if Byte.eqb c "[" then
    if (maxNestingDepth <? depth k + 1)%N then Invalid
    else Continue (BeginValueOrEmpty k)
  else if Byte.eqb c x22 then Continue (InString [] k)
  else if Byte.eqb c "-" then Continue (InNumber NNeg [c] k)
  else if Byte.eqb c "0" then Continue (InNumber N0 [c] k)
  else if isDigit c then Continue (InNumber N1 [c] k)
  else if Byte.eqb c "t" then Continue (InLiteral ["r"; "u"; "e"]%byte (JBool true) k)
  else if Byte.eqb c "f" then
    Continue (InLiteral ["a"; "l"; "s"; "e"]%byte (JBool false) k)
  else if Byte.eqb c "n" then Continue (InLiteral ["u"; "l"; "l"]%byte JNull k)
  else Invalid.

(** The end of a number: the number goes to its context and the byte
    that ended it is examined there. *)
Definition endNumber (lit : list byte) (k : context) (c : byte) : result :=
  match deliver (JNumber (string_of_list_byte (rev lit))) k with
  | Continue st => stepEndValue st c
  | r => r
  end.

Definition stepNumber (ns : numstate) (lit : list byte) (k : context) (c : byte)
  : result :=
  let go ns' := Continue (InNumber ns' (c :: lit) k) in
  let isE := Byte.eqb c "e" || Byte.eqb c "E" in
  match ns with
  | NNeg => if Byte.eqb c "0" then go N0 else if isDigit c then go N1 else Invalid
  | N1 => if isDigit c then go N1
          else if Byte.eqb c "." then go NDot
          else if isE then go NE
          else endNumber lit k c
  | N0 => if Byte.eqb c "." then go NDot
          else if isE then go NE
          else endNumber lit k c
  | NDot => if isDigit c then go NDot0 else Invalid
  | NDot0 => if isDigit c then go NDot0
             else if isE then go NE
             else endNumber lit k c
  | NE => if Byte.eqb c "+" || Byte.eqb c "-" then go NESign
          else if isDigit c then go NE0
          else Invalid
  | NESign => if isDigit c then go NE0 else Invalid
  | NE0 => if isDigit c then go NE0 else endNumber lit k c
  end.

Definition step (st : state) (c : byte) : result :=
  match st with
  | BeginValue k => if isSpace c then Continue st else beginValue k c
  | BeginValueOrEmpty up =>
      if isSpace c then Continue st
      else if Byte.eqb c "]" then deliver (JArray []) up
      else beginValue (InArray [] up) c
  | BeginStringOrEmpty up =>
      if isSpace c then Continue st
      else if Byte.eqb c "}" then deliver (JObject []) up
      else if Byte.eqb c x22 then Continue (InString [] (InKey [] up))
      else Invalid
  | BeginString done up =>
      if isSpace c then Continue st
      else if Byte.eqb c x22 then Continue (InString [] (InKey done up))
      else Invalid
  | InString raw k =>
      if Byte.eqb c x22
      then deliver (JString (string_of_list_byte (unquote (rev raw)))) k
      else if Byte.eqb c "\" then Continue (InStringEsc (c :: raw) k)
      else if (num c <? 32)%N then Invalid
      else Continue (InString (c :: raw) k)
  | InStringEsc raw k =>
      if Byte.eqb c "b" || Byte.eqb c "f" || Byte.eqb c "n" || Byte.eqb c "r"
         || Byte.eqb c "t" || Byte.eqb c "\" || Byte.eqb c "/" || Byte.eqb c x22
      then Continue (InString (c :: raw) k)
      else if Byte.eqb c "u" then Continue (InStringEscU 4 (c :: raw) k)
      else Invalid
  | InStringEscU n raw k =>
      if isHex c then
        match n with
        | S (S m) => Continue (InStringEscU (S m) (c :: raw) k)
        | _ => Continue (InString (c :: raw) k)
        end
      else Invalid
  | InNumber ns lit k => stepNumber ns lit k c
  | InLiteral rest v k =>
      match rest with
      | [] => Invalid
      | x :: rest' =>
          if Byte.eqb c x then
            match rest' with
            | [] => deliver v k
            | _ => Continue (InLiteral rest' v k)
            end
          else Invalid
      end
  | AfterElement _ _ | AfterMember _ _ | AfterKey _ _ _ => stepEndValue st c
  end.

Inductive scanned : Type :=
| Value (v : value)
| SyntaxError
| EOF
| UnexpectedEOF.

(** The end of the stream: a number at top level ends there; a stream
    with nothing but white space gives [io.EOF]. *)
Definition atEOF (st : state) : scanned :=
  match st with
  | BeginValue Top => EOF
  | InNumber (N0 | N1 | NDot0 | NE0) lit Top =>
      Value (JNumber (string_of_list_byte (rev lit)))
  | _ => UnexpectedEOF
  end.

Fixpoint scan (st : state) (input : list byte) : scanned :=
  match input with
  | [] => atEOF st
  | c :: rest =>
      match step st c with
      | Continue st' => scan st' rest
      | Finished v => Value v
      | Invalid => SyntaxError
      end
  end.

(** [Decoder.readValue]: the first value of the stream. *)
Definition readValue (input : list byte) : scanned := scan (BeginValue Top) input.

(** *** Field names and integers *)

Definition lower (a : ascii) : ascii :=
  if gostring.between 65 90 a then ascii_of_N (gostring.code a + 32) else a.

(** How a key of the text selects a field whose name is made of ASCII
    letters: the names are compared without regard to case. *)
Definition foldEq (key name : string) : bool :=
  String.eqb (gostring.map lower key) (gostring.map lower name).

Fixpoint digits (acc : Z) (s : string) : option Z :=
  match s with
  | EmptyString => Some acc
  | String a r =>
      if gostring.between 48 57 a
      then digits (10 * acc + Z.of_N (gostring.code a - 48)) r
      else None
  end.

(** [strconv.ParseInt(lit, 10, 64)] on a number literal: literals with a
    fraction or an exponent and integers outside 64 bits are refused. *)
Definition parseInt64 (lit : string) : option Z :=
  let r := match lit with
           | String "-"%char (String a r) => option_map Z.opp (digits 0 (String a r))
           | String _ _ => digits 0 lit
           | EmptyString => None
           end in
  match r with
  | Some n => if (- 2 ^ 63 <=? n) && (n <=? 2 ^ 63 - 1) then Some n else None
  | None => None
  end.

End json.

(** ** The response envelope *)

(** [strconv.Itoa] *)
Definition Itoa (n : Z) : string := NilZero.string_of_int (Z.to_int n).

Definition Version : Z := 3.

Definition headerAPIVersion : string := "X-Pm-Apiversion".
Definition headerAppVersion : string := "X-Pm-Appversion".

(** [func (err *APIError) Error() string] *)
Definition APIError_Error (err : APIError.t) : string :=
  "[" +:+ Itoa (APIError.Code err) +:+ "] " +:+ APIError.Message err.

(** The interface [maybeError]. *)
Class maybeError (T : Type) : Type := Err : T -> option error.

(** How [encoding/json] stores a decoded value into a destination of type
    [T]: the destination after the store, and the first type error met. *)
Class Unmarshaler (T : Type) : Type :=
  Unmarshal : json.value -> T -> T * option error.

(** What [encoding/json] writes for a request body of type [T]. *)
Class Marshaler (T : Type) : Type := Marshal : T -> list byte + error.

Module resp.

(** [type resp struct { Code int; *RawAPIError }]: the embedded pointer
    is [nil] until a field of the embedded record is decoded. *)
Record t : Type := mk { Code : Z; RawAPIError : option RawAPIError.t }.

(** [new(resp)] *)
Definition new : t := {| Code := 0; RawAPIError := None |}.

(** [func (r *resp) Err() error] *)
Definition Err (r : t) : option error :=
  match RawAPIError r with
  | Some err =>
      Some (ErrAPI {| APIError.Code := Code r;
                      APIError.Message := RawAPIError.Message err |})
  | None => None
  end.

Definition typeError : error := ErrJSON "cannot unmarshal into Go value".

(** The embedded record, allocated when it is [nil]. *)
Definition embedded (r : t) : RawAPIError.t :=
  match RawAPIError r with
  | Some e => e
  | None => {| RawAPIError.Message := "" |}
  end.

(** One member of a JSON object stored into a [resp].  The two fields
    are [Code] and, promoted from the embedded record with its tag,
    [Error].  A [null] leaves the field as it is; on a value of the
    wrong type the field is left as it is and the error is kept.  The
    embedded record is allocated as soon as a member selects its
    field, whatever the value. *)
Definition member (acc : t * option error) (m : string * json.value)
  : t * option error :=
  let '(r, saved) := acc in
  let save := match saved with Some e => Some e | None => Some typeError end in
  let '(key, v) := m in
  if json.foldEq key "Code" then
    match v with
    | json.JNull => (r, saved)
    | json.JNumber lit =>
        match json.parseInt64 lit with
        | Some n => ({| Code := n; RawAPIError := RawAPIError r |}, saved)
        | None => (r, save)
        end
    | _ => (r, save)
    end
  else if json.foldEq key "Error" then
    let e := embedded r in
    match v with
    | json.JNull => ({| Code := Code r; RawAPIError := Some e |}, saved)
    | json.JString s =>
        ({| Code := Code r;
            RawAPIError := Some {| RawAPIError.Message := s |} |}, saved)
    | _ => ({| Code := Code r; RawAPIError := Some e |}, save)
    end
  else (r, saved).

(** A JSON value stored into a [*resp]: an object is stored member by
    member, [null] stores nothing, any other value is a type error. *)
Definition store (v : json.value) (r : t) : t * option error :=
  match v with
  | json.JObject members => fold_left member members (r, None)
  | json.JNull => (r, None)
  | _ => (r, Some typeError)
  end.

End resp.

#[export] Instance resp_maybeError : maybeError resp.t := resp.Err.
#[export] Instance resp_Unmarshaler : Unmarshaler resp.t := resp.store.

(** A destination [respData]: a pointer to a value of some type that
    [encoding/json] can fill, which may or may not implement
    [maybeError]. *)
Record Dest : Type := mkDest {
  carrier : Type;
  pointee : carrier;
  dest_Unmarshaler : Unmarshaler carrier;
  dest_maybeError : option (maybeError carrier)
}.

Definition respDest (r : resp.t) : Dest :=
  {| carrier := resp.t; pointee := r;
     dest_Unmarshaler := resp_Unmarshaler;
     dest_maybeError := Some resp_maybeError |}.

(** [json.NewDecoder(body).Decode(respData)]: the first value of the
    stream is read and stored. *)
Definition Decode (body : http.ReadCloser) (d : Dest) : Dest * option error :=
  if http.closed body then (d, Some (ErrExternal "read on closed body"))
  else
    match json.readValue (http.unread body) with
    | json.Value v =>
        let '(x, e) := @Unmarshal _ (dest_Unmarshaler d) v (pointee d) in
        ({| carrier := carrier d; pointee := x;
            dest_Unmarshaler := dest_Unmarshaler d;
            dest_maybeError := dest_maybeError d |}, e)
    | json.SyntaxError => (d, Some (ErrJSON "invalid character"))
    | json.EOF => (d, Some (ErrJSON "EOF"))
    | json.UnexpectedEOF => (d, Some (ErrJSON "unexpected EOF"))
    end.

(** [json.NewEncoder(&buf).Encode(body)]: the encoding of the body
    followed by a newline. *)
Definition Encode {T : Type} `{Marshaler T} (body : T) : list byte + error :=
  match Marshal body with
  | inl b => inl (b ++ [x0a])
  | inr err => inr err
  end.

(** ** The client *)

(** What [http.Client.Do] and [Client.do] return, a pair
    response pointer and an error: a response and no error, or an error,
    possibly with a response beside it. *)
Inductive Result : Type :=
| Ok (resp : http.Response)
| Fail (resp : option http.Response) (err : error).

Section protonmail.

(** The key ring type of [openpgp], which the client only stores. *)
Variable EntityList : Type.

(** The state of everything outside the client: the network, the
    server, whatever the re-authentication hook works on. *)
Variable World : Type.

(** The data fields of [Client]. *)
Record Client : Type := mkClient {
  RootURL : string;
  AppVersion : string;
  uid : string;
  accessToken : string;
  authToken : string;
  keyRing : EntityList
}.

Definition set_accessToken (c : Client) (tok : string) : Client :=
  {| RootURL := RootURL c; AppVersion := AppVersion c; uid := uid c;
     accessToken := tok; authToken := authToken c; keyRing := keyRing c |}.

(** A transport sends a request and changes the world.  It is given the
    request as it stands and whatever it reads of the body is part of its
    own working; the state in which the HTTP library leaves the stream of
    a request it has sent (read to the end and closed) is not written
    back into the request record. *)
Definition Transport : Type := http.Request -> World -> Result * World.

(** The hook [func() error] is a closure over the client: it may write
    any data field of the client and change the world. *)
Definition Hook : Type := Client -> World -> option error * Client * World.

(** The function-valued fields of [Client], either of which may be
    [nil].  They are kept apart from the data fields because the hook
    refers to the client; the hook is taken not to reassign them. *)
Record Collaborators : Type := mkCollaborators {
  HTTPClient : option Transport;
  ReAuth : option Hook
}.

(** [http.DefaultClient] *)
Variable DefaultClient : Transport.

(** The validation of method and URL by [http.NewRequest]. *)
Variable checkRequestLine : string -> string -> option error.

(** [func (c *Client) setRequestAuthorization(req *http.Request)] *)
Definition setRequestAuthorization (c : Client) (req : http.Request) : http.Request :=
  if negb (gostring.is_empty (uid c)) then
    let req := http.Request_SetHeader req "X-Pm-Uid" (uid c) in
    let req :=
      if negb (gostring.is_empty (authToken c)) then
        let authCookie :=
          {| http.Name := "AUTH-" +:+ uid c;
             http.Value := url.QueryEscape (authToken c) |} in
        http.AddCookie req authCookie
      else req in
    if negb (gostring.is_empty (accessToken c)) then
      http.Request_SetHeader req "Authorization" ("Bearer " +:+ accessToken c)
    else req
  else req.

(** [func (c *Client) newRequest(method, path string, body io.Reader)] *)
Definition newRequest (c : Client) (method path : string) (body : option http.Reader)
  : http.Request + error :=
  match http.NewRequest checkRequestLine method (RootURL c +:+ path) body with
  | inr err => inr err
  | inl req =>
      let req := http.Request_SetHeader req headerAppVersion (AppVersion c) in
      let req := http.Request_SetHeader req headerAPIVersion (Itoa Version) in
      inl (setRequestAuthorization c req)
  end.

(** [func (c *Client) newJSONRequest(method, path string, body interface{})] *)
Definition newJSONRequest {T : Type} `{Marshaler T} (c : Client)
    (method path : string) (body : T) : http.Request + error :=
  match Encode body with
  | inr err => inr err
  | inl b =>
      match newRequest c method path (Some (http.BytesReader b)) with
      | inr err => inr err
      | inl req =>
          let req := http.Request_SetHeader req "Content-Type" "application/json" in
          inl (http.set_GetBody req (Some (fun _ => inl (http.NopCloser b))))
      end
  end.

(** *** Sending

    [do] calls itself as its last action, so it is a loop; [attempt] is
    one turn of that loop, the body of [do] up to the recursive call.
    A turn either returns, or asks for a further turn on the updated
    client and request. *)
Inductive Turn : Type :=
| Return (res : Result) (c : Client) (req : http.Request) (w : World)
| Again (c : Client) (req : http.Request) (w : World)
| NilCall.


(** [_, hasAuth := req.Header["Authorization"]] *)
Definition hasAuth (req : http.Request) : bool :=
  match http.Header req !! "Authorization"%string with
  | Some _ => true
  | None => false
  end.

(** [canRetry := req.Body == nil || req.GetBody != nil] *)
Definition canRetry (req : http.Request) : bool :=
  match http.Body req with None => true | Some _ => false end
  || match http.GetBody req with Some _ => true | None => false end.

(** [httpClient := c.HTTPClient], or the default client when that is
    [nil]. *)
Definition httpClient (k : Collaborators) : Transport :=
  match HTTPClient k with Some t => t | None => DefaultClient end.

Definition attempt (k : Collaborators) (c : Client) (req : http.Request) (w : World)
  : Turn :=
  let '(res, w) := httpClient k req w in
  match res with
  | Fail resp err => Return (Fail resp err) c req w
  | Ok resp =>
      match (http.StatusCode resp =? http.StatusUnauthorized) && hasAuth req,
            ReAuth k, canRetry req with
      | true, Some reAuth, true =>
          let resp := http.CloseBody resp in
          let c := set_accessToken c "" in
          let '(e, c, w) := reAuth c w in
          match e with
          | Some err => Return (Fail (Some resp) err) c req w
          | None =>
              let req := setRequestAuthorization c req in
              match http.Body req with
              | Some _ =>
                  match http.GetBody req with
                  | Some getBody =>
                      match getBody tt with
                      | inr err => Return (Fail (Some resp) err) c req w
                      | inl body => Again c (http.set_Body req (Some body)) w
                      end
                  | None => NilCall
                  end
              | None => Again c req w
              end
          end
      | _, _, _ => Return (Ok resp) c req w
      end
  end.

(** What a call of [do] leaves behind: its result and the client, the
    request and the world as they are when it returns, or the panic of
    a call through a [nil] function. *)
Inductive Outcome : Type :=
| Returned (res : Result) (c : Client) (req : http.Request) (w : World)
| Panicked.

(** [func (c *Client) do(req *http.Request)], returning a response and an
    error.
    The recursion of the source has no bound; [fuel] bounds the number
    of turns and [None] says that the bound was reached. *)
Fixpoint do (fuel : nat) (k : Collaborators) (c : Client) (req : http.Request)
    (w : World) : option Outcome :=
  match fuel with
  | O => None
  | S fuel =>
      match attempt k c req w with
      | Return res c req w => Some (Returned res c req w)
      | Again c req w => do fuel k c req w
      | NilCall => Some Panicked
      end
  end.

(** *** Sending and decoding *)

(** What [doJSON] leaves behind: the error it returns, the destination
    as decoding left it, the response with its body closed when the
    deferred [Close] ran, and the client, request and world. *)
Record Decoded : Type := mkDecoded {
  err : option error;
  respData : Dest;
  response : option http.Response;
  client : Client;
  request : http.Request;
  world : World
}.

(** The part of [doJSON] after a response was received: decode,
    then ask the destination for its error.  (The log line written with
    the error does not change the result.) *)
Definition decodeResponse (resp : http.Response) (d : Dest) : Dest * option error :=
  match Decode (http.RespBody resp) d with
  | (d, Some err) => (d, Some err)
  | (d, None) =>
      match dest_maybeError d with
      | Some E =>
          match @Err _ E (pointee d) with
          | Some err => (d, Some err)
          | None => (d, None)
          end
      | None => (d, None)
      end
  end.

(** [func (c *Client) doJSON(req *http.Request, respData interface{}) error] *)
Definition doJSON (fuel : nat) (k : Collaborators) (c : Client) (req : http.Request)
    (respData : option Dest) (w : World) : option (option Decoded) :=
  let req := http.Request_SetHeader req "Accept" "application/json" in
  let respData :=
    match respData with Some d => d | None => respDest resp.new end in
  match do fuel k c req w with
  | None => None
  | Some Panicked => Some None
  | Some (Returned (Fail r err) c req w) =>
      Some (Some (mkDecoded (Some err) respData r c req w))
  | Some (Returned (Ok resp) c req w) =>
      let '(d, e) := decodeResponse resp respData in
      Some (Some (mkDecoded e d (Some (http.CloseBody resp)) c req w))
  end.

(** [func (c *Client) doJSONWithCookies(req, respData) ([]*http.Cookie, error)]:
    the cookies returned, [nil] beside an error, and what the call leaves
    behind. *)
Definition doJSONWithCookies (fuel : nat) (k : Collaborators) (c : Client)
    (req : http.Request) (respData : option Dest) (w : World)
  : option (option (list http.Cookie * Decoded)) :=
  let req := http.Request_SetHeader req "Accept" "application/json" in
  let respData :=
    match respData with Some d => d | None => respDest resp.new end in
  match do fuel k c req w with
  | None => None
  | Some Panicked => Some None
  | Some (Returned (Fail r err) c req w) =>
      Some (Some ([], mkDecoded (Some err) respData r c req w))
  | Some (Returned (Ok resp) c req w) =>
      let closed := Some (http.CloseBody resp) in
      match Decode (http.RespBody resp) respData with
      | (d, Some err) => Some (Some ([], mkDecoded (Some err) d closed c req w))
      | (d, None) =>
          match dest_maybeError d with
          | Some E =>
              match @Err _ E (pointee d) with
              | Some err => Some (Some ([], mkDecoded (Some err) d closed c req w))
              | None => Some (Some (http.Cookies resp, mkDecoded None d closed c req w))
              end
          | None => Some (Some (http.Cookies resp, mkDecoded None d closed c req w))
          end
      end
  end.

End protonmail.

Arguments mkClient {EntityList}.
Arguments RootURL {EntityList}.
Arguments AppVersion {EntityList}.
Arguments uid {EntityList}.
Arguments accessToken {EntityList}.
Arguments authToken {EntityList}.
Arguments keyRing {EntityList}.
Arguments set_accessToken {EntityList}.
Arguments mkCollaborators {EntityList World}.
Arguments HTTPClient {EntityList World}.
Arguments ReAuth {EntityList World}.
Arguments setRequestAuthorization {EntityList}.
Arguments newRequest {EntityList}.
Arguments newJSONRequest {EntityList} checkRequestLine {T _}.
Arguments Return {EntityList World}.
Arguments Again {EntityList World}.
Arguments NilCall {EntityList World}.
Arguments httpClient {EntityList World}.
Arguments attempt {EntityList World}.
Arguments Returned {EntityList World}.
Arguments Panicked {EntityList World}.
Arguments do {EntityList World}.
Arguments mkDecoded {EntityList World}.
Arguments err {EntityList World}.
Arguments respData {EntityList World}.
Arguments response {EntityList World}.
Arguments client {EntityList World}.
Arguments request {EntityList World}.
Arguments world {EntityList World}.
Arguments doJSON {EntityList World}.
Arguments doJSONWithCookies {EntityList World}.

(** ** A journal of the calls to the collaborators

    To speak of what was sent and of when the hook ran, the collaborators
    of a client are wrapped so that each call is written to a journal kept
    beside the world.  The wrapped collaborators answer as the ones they
    wrap. *)

Inductive Event (E : Type) : Type :=
| Sent (req : http.Request) (res : Result)
| Refreshed (before after : Client E) (e : option error).

Arguments Sent {E}.
Arguments Refreshed {E}.

Definition journaled {E W : Type} (t : Transport W) : Transport (W * list (Event E)) :=
  fun req wj =>
    let '(res, w) := t req (fst wj) in
    (res, (w, snd wj ++ [Sent req res])).

Definition journaledHook {E W : Type} (h : Hook E W) : Hook E (W * list (Event E)) :=
  fun c wj =>
    let '(e, c', w) := h c (fst wj) in
    (e, c', (w, snd wj ++ [Refreshed c c' e])).

Definition recording {E W : Type} (k : Collaborators E W)
  : Collaborators E (W * list (Event E)) :=
  {| HTTPClient := option_map journaled (HTTPClient k);
     ReAuth := option_map journaledHook (ReAuth k) |}.

Definition isSent {E : Type} (ev : Event E) : bool :=
  match ev with Sent _ _ => true | Refreshed _ _ _ => false end.

Definition isRefreshed {E : Type} (ev : Event E) : bool :=
  match ev with Sent _ _ => false | Refreshed _ _ _ => true end.

(** The number of requests sent and of hook calls in a journal. *)
Definition sends {E : Type} (j : list (Event E)) : nat := length (List.filter isSent j).
Definition refreshes {E : Type} (j : list (Event E)) : nat :=
  length (List.filter isRefreshed j).

(** The client as the hook calls of a journal leave it. *)
Definition clientAfter {E : Type} (c : Client E) (j : list (Event E)) : Client E :=
  fold_left (fun cur ev => match ev with
                           | Refreshed _ after _ => after
                           | Sent _ _ => cur
                           end) j c.

(** The guard of the retry in [do], on a response and the request it
    answers, given whether a hook is configured. *)
Definition retryGuard (hook : bool) (resp : http.Response) (req : http.Request) : bool :=
  (http.StatusCode resp =? http.StatusUnauthorized) && hasAuth req && hook && canRetry req.

(** The discipline of the access token in a journal: every response that
    passes the guard is followed at once by a hook call on a client whose
    access token is empty, and the hook is called at no other time. *)
Fixpoint clearedBeforeHook {E : Type} (hook : bool) (j : list (Event E)) : bool :=
  match j with
  | [] => true
  | Sent req (Ok resp) :: rest =>
      if retryGuard hook resp req then
        match rest with
        | Refreshed before _ _ :: rest' =>
            gostring.is_empty (accessToken before) && clearedBeforeHook hook rest'
        | _ => false
        end
      else clearedBeforeHook hook rest
  | Sent _ (Fail _ _) :: rest => clearedBeforeHook hook rest
  | Refreshed _ _ _ :: _ => false
  end.

(** ** A scripted server

    A world that is the list of the results still to be given: each send
    takes the next one. *)
Definition scripted : Transport (list Result) :=
  fun _ w =>
    match w with
    | [] => (Fail None (ErrExternal "connection refused"), [])
    | r :: rest => (r, rest)
    end.

(** A hook that always succeeds and rewrites the client by [f]. *)
Definition refreshing {E W : Type} (f : Client E -> Client E) : Hook E W :=
  fun c w => (None, f c, w).

(** A hook that always fails and leaves the client as it found it. *)
Definition failing {E W : Type} (e : error) : Hook E W :=
  fun c w => (Some e, c, w).

(** [c.ReAuth != nil] *)
Definition hookConfigured {E W : Type} (k : Collaborators E W) : bool :=
  match ReAuth k with Some _ => true | None => false end.

(** The text of the cookie that [setRequestAuthorization] adds for a
    client: the sanitized name, [=], and the escaped token. *)
Definition authCookieText {E : Type} (c : Client E) : string :=
  http.sanitizeCookieName ("AUTH-" +:+ uid c) +:+ "=" +:+ url.QueryEscape (authToken c).

(** The part of [attempt] that follows a successful hook call, on the
    response already closed: authorization is attached again, the body is
    taken again from the replay function, and a further turn is asked
    for. *)
Definition resend {E W : Type} (resp : http.Response) (c : Client E)
    (req : http.Request) (w : W) : Turn E W :=
  let req := setRequestAuthorization c req in
  match http.Body req with
  | Some _ =>
      match http.GetBody req with
      | Some getBody =>
          match getBody tt with
          | inr err => Return (Fail (Some resp) err) c req w
          | inl body => Again c (http.set_Body req (Some body)) w
          end
      | None => NilCall
      end
  | None => Again c req w
  end.

(** ** Concrete clients, requests and servers *)

Module Scenario.
Import gostring.

Definition bytes (s : string) : list byte := list_byte_of_string s.

(** [s] between double quotes *)
Definition q (s : string) : string := String dquote (s +:+ String dquote EmptyString).

(** The body [{"Code":2000}] *)
Definition bodyCode2000 : list byte := bytes ("{" +:+ q "Code" +:+ ":2000}").

(** The body [{"Code":1000}] *)
Definition bodyCode1000 : list byte := bytes ("{" +:+ q "Code" +:+ ":1000}").

(** The body [{"Code":401,"Error":"invalid token"}] *)
Definition bodyInvalidToken : list byte :=
  bytes ("{" +:+ q "Code" +:+ ":401," +:+ q "Error" +:+ ":" +:+ q "invalid token" +:+ "}").

(** The body [{"Code":1000,"Error":""}], whose message is empty *)
Definition bodyEmptyMessage : list byte :=
  bytes ("{" +:+ q "Code" +:+ ":1000," +:+ q "Error" +:+ ":" +:+ q EmptyString +:+ "}").

Definition respond (status : Z) (body : list byte) : http.Response :=
  {| http.StatusCode := status; http.RespBody := http.NopCloser body;
     http.Cookies := [] |}.

Definition unauthorized : http.Response := respond 401 bodyInvalidToken.
Definition success : http.Response := respond 200 bodyCode1000.

(** A logged-in client: [sessionID = u1], [accessToken = t1]. *)
Definition alice : Client unit :=
  {| RootURL := "https://mail.example/api"; AppVersion := "Other";
     uid := "u1"; accessToken := "t1"; authToken := "a 1"; keyRing := tt |}.

(** A client that never logged in. *)
Definition anonymous : Client unit :=
  {| RootURL := "https://mail.example/api"; AppVersion := "Other";
     uid := EmptyString; accessToken := "t1"; authToken := "a 1"; keyRing := tt |}.

Definition accept : string -> string -> option error := fun _ _ => None.

Definition blank : http.Request :=
  {| http.Method := "GET"; http.URL := EmptyString; http.Header := ∅;
     http.Body := None; http.GetBody := None |}.

Definition built (r : http.Request + error) : http.Request :=
  match r with inl req => req | inr _ => blank end.

(** [GET /x] as [alice] builds it. *)
Definition getX : http.Request := built (newRequest accept alice "GET" "/x" None).

(** [POST /y] with a body that cannot be replayed. *)
Definition postStream : http.Request :=
  built (newRequest accept alice "POST" "/y" (Some (http.StreamReader (bytes "data")))).

(** [GET /x] as a client without a session builds it. *)
Definition getAnonymous : http.Request :=
  built (newRequest accept anonymous "GET" "/x" None).

#[export] Instance bool_Marshaler : Marshaler bool :=
  fun b => inl (bytes (if b then "true" else "false")).

(** [POST /y] with the JSON body [true]. *)
Definition postJSON : http.Request := built (newJSONRequest accept alice "POST" "/y" true).

(** The default client of a process without network. *)
Definition offline : Transport (list Result) :=
  fun _ w => (Fail None (ErrExternal "no network"), w).

Definition newToken (c : Client unit) : Client unit := set_accessToken c "t2".

Definition withHook (h : Hook unit (list Result)) : Collaborators unit (list Result) :=
  {| HTTPClient := Some scripted; ReAuth := Some h |}.

Definition withoutHook : Collaborators unit (list Result) :=
  {| HTTPClient := Some scripted; ReAuth := None |}.

(** A server that answers every request with the unauthorized response;
    its world counts the requests received. *)
Definition rejecting : Transport nat := fun _ n => (Ok unauthorized, S n).

(** A response that sets a session cookie. *)
Definition welcome : http.Response :=
  {| http.StatusCode := 200; http.RespBody := http.NopCloser bodyCode1000;
     http.Cookies := [{| http.Name := "Session-Id"; http.Value := "s1" |}] |}.

(** A hook that writes a new access token and fails all the same. *)
Definition writingThenFailing (e : error) : Hook unit (list Result) :=
  fun c w => (Some e, set_accessToken c "t9", w).

(** [POST /y] with the JSON body [true] after a send, as the HTTP library
    leaves it: the stream of the body read to the end and closed. *)
Definition postJSONSent : http.Request :=
  http.set_Body postJSON (Some {| http.unread := []; http.closed := true |}).

(** A request with a body whose replay function fails. *)
Definition brokenReplay : http.Request :=
  http.set_GetBody postStream (Some (fun _ => inr (ErrExternal "cannot rewind"))).

End Scenario.

(** ** Vocabulary for the properties *)

(** A request whose body, if it has one, can be supplied again: the
    replay function is there and returns a stream. *)
Definition replayable (req : http.Request) : Prop :=
  http.Body req = None
  \/ exists g body, http.GetBody req = Some g /\ g tt = inl body.

(** A result that is not an unauthorized response. *)
Definition terminal (r : Result) : Prop :=
  match r with
  | Ok resp => http.StatusCode resp <> http.StatusUnauthorized
  | Fail _ _ => True
  end.

(** The status of the response a call returned without error. *)
Definition outcomeStatus {E W : Type} (o : option (Outcome E W)) : option Z :=
  match o with
  | Some (Returned (Ok resp) _ _ _) => Some (http.StatusCode resp)
  | _ => None
  end.

(** The journal a recorded call left. *)
Definition outcomeJournal {E W : Type} (o : option (Outcome E (W * list (Event E))))
  : list (Event E) :=
  match o with
  | Some (Returned _ _ _ (_, j)) => j
  | _ => []
  end.

(** The client a call left. *)
Definition outcomeClient {E W : Type} (o : option (Outcome E W)) : option (Client E) :=
  match o with
  | Some (Returned _ c _ _) => Some c
  | _ => None
  end.

(** The status of the response received by a send of the journal. *)
Definition eventStatus {E : Type} (ev : Event E) : option Z :=
  match ev with
  | Sent _ (Ok resp) => Some (http.StatusCode resp)
  | _ => None
  end.

(** Whether a member of a JSON object selects the field [Error]. *)
Definition selectsError (m : string * json.value) : bool := json.foldEq (fst m) "Error".

(** Whether a member of a JSON object selects the field [Code]. *)
Definition selectsCode (m : string * json.value) : bool := json.foldEq (fst m) "Code".

(** The requests of the sends of a journal, in order. *)
Definition sentRequests {E : Type} (j : list (Event E)) : list http.Request :=
  List.flat_map (fun ev => match ev with
                           | Sent req _ => [req]
                           | Refreshed _ _ _ => []
                           end) j.

(** A destination of type [*json.RawMessage]: the value read is kept as
    it is, whatever it is, and the type does not implement
    [maybeError]. *)
Definition anyDest (v : json.value) : Dest :=
  {| carrier := json.value; pointee := v;
     dest_Unmarshaler := fun v _ => (v, None);
     dest_maybeError := None |}.

(** The bytes that [url.QueryEscape] may write: the unreserved
    characters, [+] and [%]. *)
Definition escapedByte (a : ascii) : bool :=
  negb (url.shouldEscape a) || (gostring.code a =? 43)%N || (gostring.code a =? 37)%N.

(** The cookies that [doJSONWithCookies] returns beside what [doJSON]
    leaves behind: those of the response when there is no error, none
    otherwise. *)
Definition cookiesOf {E W : Type} (r : Decoded E W) : list http.Cookie :=
  match err r, response r with
  | None, Some resp => http.Cookies resp
  | _, _ => []
  end.

(** A request that is addressed as [req] is and has the value of [req]
    under the header [key]. *)
Definition sameUnder (key : string) (req q : http.Request) : Prop :=
  http.Method q = http.Method req /\ http.URL q = http.URL req
  /\ http.Header q !! key = http.Header req !! key.

(** A byte that is not the closing bracket. *)
Definition notBracket (a : ascii) : bool := negb (Ascii.eqb a "]").

(** * Properties *)

(** ** Strings, escaping and cookies *)

Lemma is_empty_true (s : string) : gostring.is_empty s = true <-> s = EmptyString.
Proof. destruct s; simpl; split; congruence. Qed.

Lemma is_empty_false (s : string) : gostring.is_empty s = false <-> s <> EmptyString.
Proof. destruct s; simpl; split; congruence. Qed.

Lemma hexdigit_valid (n : N) : http.validCookieValueByte (url.hexdigit n) = true.
Proof.
  unfold url.hexdigit.
  destruct (N.to_nat n) as [|m]; [reflexivity|].
  do 15 (destruct m as [|m]; [reflexivity|]).
  reflexivity.
Qed.

Lemma hexdigit_no_separator (n : N) :
  let a := url.hexdigit n in
  ((gostring.code a =? 32)%N || (gostring.code a =? 44)%N) = false.
Proof.
  unfold url.hexdigit.
  destruct (N.to_nat n) as [|m]; [reflexivity|].
  do 15 (destruct m as [|m]; [reflexivity|]).
  reflexivity.
Qed.

Lemma unescaped_valid (a : ascii) :
  url.shouldEscape a = false ->
  http.validCookieValueByte a = true
  /\ ((gostring.code a =? 32)%N || (gostring.code a =? 44)%N) = false.
Proof.
  destruct a as [[] [] [] [] [] [] [] []]; vm_compute; intros H;
    first [discriminate H | split; reflexivity].
Qed.

(** Every byte written by [url.QueryEscape] is valid in a cookie value. *)
Lemma QueryEscape_valid (s : string) :
  gostring.filter http.validCookieValueByte (url.QueryEscape s) = url.QueryEscape s.
Proof.
  induction s as [|a r IH]; [reflexivity|].
  cbn [url.QueryEscape].
  destruct (url.shouldEscape a) eqn:Ha.
  - destruct (gostring.code a =? 32)%N.
    + cbn [gostring.filter]. change (http.validCookieValueByte "+") with true.
      cbv iota. now rewrite IH.
    + cbn [gostring.filter]. change (http.validCookieValueByte "%") with true.
      cbv iota. rewrite !hexdigit_valid. now rewrite IH.
  - cbn [gostring.filter]. destruct (unescaped_valid a Ha) as [-> _]. now rewrite IH.
Qed.

(** [url.QueryEscape] writes neither a space nor a comma. *)
Lemma QueryEscape_no_separator (s : string) :
  gostring.any (fun a => (gostring.code a =? 32)%N || (gostring.code a =? 44)%N)
    (url.QueryEscape s) = false.
Proof.
  induction s as [|a r IH]; [reflexivity|].
  cbn [url.QueryEscape].
  destruct (url.shouldEscape a) eqn:Ha.
  - destruct (gostring.code a =? 32)%N.
    + cbn [gostring.any]. now rewrite IH.
    + cbn [gostring.any].
      pose proof (hexdigit_no_separator (N.shiftr (gostring.code a) 4)) as H1.
      pose proof (hexdigit_no_separator (N.land (gostring.code a) 15)) as H2.
      cbv zeta in H1, H2. rewrite H1, H2, IH. reflexivity.
  - cbn [gostring.any]. destruct (unescaped_valid a Ha) as [_ ->]. now rewrite IH.
Qed.

(** An escaped token goes into the cookie as it is. *)
Lemma sanitizeCookieValue_QueryEscape (s : string) :
  http.sanitizeCookieValue (url.QueryEscape s) = url.QueryEscape s.
Proof.
  unfold http.sanitizeCookieValue.
  rewrite QueryEscape_valid, QueryEscape_no_separator.
  now destruct (gostring.is_empty (url.QueryEscape s)).
Qed.

(** ** Headers *)

Lemma Header_Get_Set (h : gmap string (list string)) (key value : string) :
  http.Header_Get (http.Header_Set h key value) key = value.
Proof. unfold http.Header_Get, http.Header_Set. now rewrite lookup_insert_eq. Qed.

Lemma Header_lookup_Set_ne (h : gmap string (list string)) (key key' value : string) :
  key <> key' -> http.Header_Set h key value !! key' = h !! key'.
Proof. intros Hne. unfold http.Header_Set. now rewrite lookup_insert_ne. Qed.

Lemma Header_AddCookie (req : http.Request) (c : http.Cookie) (key : string) :
  key <> "Cookie"%string ->
  http.Header (http.AddCookie req c) !! key = http.Header req !! key.
Proof.
  intros Hne. unfold http.AddCookie.
  destruct (gostring.is_empty _); simpl; apply Header_lookup_Set_ne; congruence.
Qed.

Lemma Cookie_AddCookie (req : http.Request) (c : http.Cookie) :
  let s := (http.sanitizeCookieName (http.Name c) +:+ "="
            +:+ http.sanitizeCookieValue (http.Value c))%string in
  let line := http.Header_Get (http.Header req) "Cookie" in
  http.Header (http.AddCookie req c) !! "Cookie"%string
  = Some [if gostring.is_empty line then s else line +:+ "; " +:+ s].
Proof.
  cbv zeta. unfold http.AddCookie.
  destruct (gostring.is_empty _); simpl; unfold http.Header_Set;
    now rewrite lookup_insert_eq.
Qed.

(** ** The request builder *)

Section Builder.
Context {E : Type}.
Implicit Types (c : Client E) (req : http.Request).

Lemma setRequestAuthorization_Body c req :
  http.Body (setRequestAuthorization c req) = http.Body req.
Proof.
  unfold setRequestAuthorization, http.AddCookie.
  repeat (destruct (negb _) || destruct (gostring.is_empty _)); reflexivity.
Qed.

Lemma setRequestAuthorization_GetBody c req :
  http.GetBody (setRequestAuthorization c req) = http.GetBody req.
Proof.
  unfold setRequestAuthorization, http.AddCookie.
  repeat (destruct (negb _) || destruct (gostring.is_empty _)); reflexivity.
Qed.

(** Re-attaching authorization never removes a header. *)
Lemma setRequestAuthorization_keeps c req (key : string) :
  is_Some (http.Header req !! key) ->
  is_Some (http.Header (setRequestAuthorization c req) !! key).
Proof.
  intros H. unfold setRequestAuthorization, http.AddCookie, http.Request_SetHeader,
    http.Header_Set.
  repeat (destruct (negb _) || destruct (gostring.is_empty _)); simpl; try assumption;
    repeat (rewrite lookup_insert; case_decide; [eauto|]); assumption.
Qed.

Lemma hasAuth_is_Some req :
  hasAuth req = true <-> is_Some (http.Header req !! "Authorization"%string).
Proof.
  unfold hasAuth. destruct (http.Header req !! _); split; intros H;
    try reflexivity; try discriminate; eauto. now destruct H.
Qed.

Lemma setRequestAuthorization_hasAuth c req :
  hasAuth req = true -> hasAuth (setRequestAuthorization c req) = true.
Proof. rewrite !hasAuth_is_Some. apply setRequestAuthorization_keeps. Qed.

Lemma setRequestAuthorization_no_session c req :
  uid c = EmptyString -> setRequestAuthorization c req = req.
Proof. intros H. unfold setRequestAuthorization. now rewrite H. Qed.

(** The cookie line after attaching authorization for a session with an
    auth token. *)
Lemma setRequestAuthorization_Cookie c req :
  uid c <> EmptyString -> authToken c <> EmptyString ->
  http.Header (setRequestAuthorization c req) !! "Cookie"%string
  = Some [let line := http.Header_Get (http.Header req) "Cookie" in
          if gostring.is_empty line then authCookieText c
          else line +:+ "; " +:+ authCookieText c].
Proof.
  intros Hu Ha. apply is_empty_false in Hu, Ha.
  unfold setRequestAuthorization. rewrite Hu, Ha. cbn [negb].
  assert (Hline : http.Header_Get
                    (http.Header (http.Request_SetHeader req "X-Pm-Uid" (uid c)))
                    "Cookie" = http.Header_Get (http.Header req) "Cookie").
  { unfold http.Header_Get. simpl. now rewrite Header_lookup_Set_ne. }
  destruct (negb (gostring.is_empty (accessToken c))).
  - simpl. rewrite Header_lookup_Set_ne by discriminate.
    rewrite Cookie_AddCookie. cbv zeta. rewrite Hline. simpl.
    now rewrite sanitizeCookieValue_QueryEscape.
  - rewrite Cookie_AddCookie. cbv zeta. rewrite Hline. simpl.
    now rewrite sanitizeCookieValue_QueryEscape.
Qed.

Lemma setRequestAuthorization_Uid c req :
  uid c <> EmptyString ->
  http.Header (setRequestAuthorization c req) !! "X-Pm-Uid"%string = Some [uid c].
Proof.
  intros Hu. apply is_empty_false in Hu.
  unfold setRequestAuthorization. rewrite Hu. cbn [negb].
  destruct (negb (gostring.is_empty (authToken c)));
    destruct (negb (gostring.is_empty (accessToken c))); simpl;
    rewrite ?Header_lookup_Set_ne by discriminate;
    rewrite ?Header_AddCookie by discriminate;
    simpl; unfold http.Header_Set; now rewrite lookup_insert_eq.
Qed.

Lemma setRequestAuthorization_Bearer c req :
  uid c <> EmptyString -> accessToken c <> EmptyString ->
  http.Header (setRequestAuthorization c req) !! "Authorization"%string
  = Some ["Bearer " +:+ accessToken c].
Proof.
  intros Hu Ha. apply is_empty_false in Hu, Ha.
  unfold setRequestAuthorization. rewrite Hu, Ha. cbn [negb].
  simpl. unfold http.Header_Set. now rewrite lookup_insert_eq.
Qed.

(** What [newRequest] builds, when the request line is accepted. *)
Lemma newRequest_inl check c (method path : string) body req :
  newRequest check c method path body = inl req ->
  exists req0,
    http.NewRequest check method (RootURL c +:+ path) body = inl req0
    /\ http.Header req0 = ∅
    /\ req = setRequestAuthorization c
               (http.Request_SetHeader
                  (http.Request_SetHeader req0 headerAppVersion (AppVersion c))
                  headerAPIVersion (Itoa Version)).
Proof.
  unfold newRequest. destruct (http.NewRequest _ _ _ _) as [req0|e] eqn:HN;
    [|discriminate].
  intros [= <-]. exists req0. split; [reflexivity|]. split; [|reflexivity].
  unfold http.NewRequest in HN. destruct (check _ _); [discriminate|].
  now injection HN as <-.
Qed.

Lemma newRequest_Body check c (method path : string) body req :
  newRequest check c method path body = inl req ->
  http.Body req = match body with
                  | None => None
                  | Some (http.BytesReader b) | Some (http.StreamReader b) =>
                      Some (http.NopCloser b)
                  end.
Proof.
  intros H. apply newRequest_inl in H as (req0 & HN & _ & ->).
  rewrite setRequestAuthorization_Body. simpl.
  unfold http.NewRequest in HN. destruct (check _ _); [discriminate|].
  now injection HN as <-.
Qed.

End Builder.

Lemma newJSONRequest_inl {E T : Type} `{Marshaler T} check (c : Client E)
    (method path : string) (body : T) req :
  newJSONRequest check c method path body = inl req ->
  exists b req0,
    Encode body = inl b
    /\ newRequest check c method path (Some (http.BytesReader b)) = inl req0
    /\ req = http.set_GetBody
               (http.Request_SetHeader req0 "Content-Type" "application/json")
               (Some (fun _ => inl (http.NopCloser b))).
Proof.
  unfold newJSONRequest. destruct (Encode body) as [b|e]; [|discriminate].
  destruct (newRequest _ _ _ _ _) as [req0|e] eqn:Hreq0; [|discriminate].
  intros [= <-]. now exists b, req0.
Qed.

(** C7.  When the session identifier of the client is empty, no
    authorization material is attached: attaching authorization leaves a
    request as it is, and a request built by [newRequest] or by
    [newJSONRequest] has no session-identity header, no cookie and no
    bearer authorization header. *)
Theorem no_session_no_authorization {E : Type} (c : Client E) :
  uid c = EmptyString ->
  (forall req, setRequestAuthorization c req = req)
  /\ (forall check method path body req,
        newRequest check c method path body = inl req ->
        http.Header req !! "X-Pm-Uid"%string = None
        /\ http.Header req !! "Cookie"%string = None
        /\ http.Header req !! "Authorization"%string = None)
  /\ (forall (T : Type) (M : Marshaler T) check method path (body : T) req,
        newJSONRequest check c method path body = inl req ->
        http.Header req !! "X-Pm-Uid"%string = None
        /\ http.Header req !! "Cookie"%string = None
        /\ http.Header req !! "Authorization"%string = None).
Proof.
  intros Hu.
  assert (Hnew : forall check method path body req,
             newRequest check c method path body = inl req ->
             http.Header req !! "X-Pm-Uid"%string = None
             /\ http.Header req !! "Cookie"%string = None
             /\ http.Header req !! "Authorization"%string = None).
  { intros check method path body req Hreq.
    apply newRequest_inl in Hreq as (req0 & _ & H0 & ->).
    rewrite setRequestAuthorization_no_session by assumption.
    simpl. rewrite H0. unfold http.Header_Set, headerAPIVersion, headerAppVersion.
    repeat split; rewrite !lookup_insert_ne by discriminate; apply lookup_empty. }
  split; [intros req; now apply setRequestAuthorization_no_session|].
  split; [exact Hnew|].
  intros T M check method path body req Hreq.
  apply newJSONRequest_inl in Hreq as (b & req0 & _ & Hreq0 & ->).
  destruct (Hnew _ _ _ _ _ Hreq0) as (H1 & H2 & H3).
  simpl. unfold http.Header_Set.
  repeat split; rewrite lookup_insert_ne by discriminate; assumption.
Qed.

Lemma no_session_no_authorization_witness :
  uid Scenario.anonymous = EmptyString
  /\ setRequestAuthorization Scenario.anonymous Scenario.getX = Scenario.getX
  /\ http.Header Scenario.getAnonymous !! "Authorization"%string = None.
Proof.
  split; [reflexivity|].
  destruct (no_session_no_authorization Scenario.anonymous eq_refl) as (H1 & H2 & _).
  split; [apply H1|].
  apply (H2 Scenario.accept "GET"%string "/x"%string None). reflexivity.
Defined.

Lemma sanitizeCookieName_id (n : string) :
  gostring.all (fun a => negb ((gostring.code a =? 10)%N || (gostring.code a =? 13)%N)) n
  = true ->
  http.sanitizeCookieName n = n.
Proof.
  unfold http.sanitizeCookieName.
  induction n as [|a r IH]; [reflexivity|].
  cbn [gostring.all gostring.map]. intros [Ha Hr]%andb_prop.
  apply negb_true_iff in Ha. rewrite Ha. now rewrite IH.
Qed.

(** C9.  When the session identifier and the auth token are both
    non-empty, the request builder attaches the auth token as a cookie:
    its name is the prefix [AUTH-] followed by the session identifier and
    its value is the token escaped by [url.QueryEscape].  On a request
    that has cookies already the cookie is appended to the cookie line;
    a request built by [newRequest] carries exactly this cookie.  A
    session identifier without line breaks appears in the name as it
    is. *)
Theorem auth_cookie_attached {E : Type} (c : Client E) :
  uid c <> EmptyString -> authToken c <> EmptyString ->
  (forall req,
      http.Header (setRequestAuthorization c req) !! "Cookie"%string
      = Some [let line := http.Header_Get (http.Header req) "Cookie" in
              if gostring.is_empty line then authCookieText c
              else line +:+ "; " +:+ authCookieText c])
  /\ (forall check method path body req,
        newRequest check c method path body = inl req ->
        http.Header req !! "Cookie"%string = Some [authCookieText c])
  /\ (gostring.all (fun a => negb ((gostring.code a =? 10)%N || (gostring.code a =? 13)%N))
        (uid c) = true ->
      authCookieText c = "AUTH-" +:+ uid c +:+ "=" +:+ url.QueryEscape (authToken c)).
Proof.
  intros Hu Ha. split; [|split].
  - intros req. now apply setRequestAuthorization_Cookie.
  - intros check method path body req Hreq.
    apply newRequest_inl in Hreq as (req0 & _ & H0 & ->).
    rewrite setRequestAuthorization_Cookie by assumption.
    cbv zeta. unfold http.Header_Get. simpl. rewrite H0.
    unfold http.Header_Set, headerAPIVersion, headerAppVersion.
    rewrite !lookup_insert_ne by discriminate. now rewrite lookup_empty.
  - intros Hn. unfold authCookieText. rewrite sanitizeCookieName_id; [reflexivity|].
    exact Hn.
Qed.

Lemma auth_cookie_attached_witness :
  uid Scenario.alice <> EmptyString /\ authToken Scenario.alice <> EmptyString
  /\ http.Header Scenario.getX !! "Cookie"%string = Some ["AUTH-u1=a+1"%string].
Proof.
  assert (Hu : uid Scenario.alice <> EmptyString) by discriminate.
  assert (Ha : authToken Scenario.alice <> EmptyString) by discriminate.
  split; [exact Hu|]. split; [exact Ha|].
  destruct (auth_cookie_attached Scenario.alice Hu Ha) as (_ & H2 & _).
  apply (H2 Scenario.accept "GET"%string "/x"%string None). reflexivity.
Defined.

(** C6.  A request built by [newJSONRequest] was built from one
    serialization of the body: the bytes [b] that the encoder wrote.  The
    body of the request is an unread stream of [b], and every call of the
    stored replay function [GetBody] returns, without error, an unread
    stream of the same bytes [b]. *)
Theorem json_body_replays {E T : Type} `{Marshaler T} check (c : Client E)
    (method path : string) (body : T) (req : http.Request) :
  newJSONRequest check c method path body = inl req ->
  exists b,
    Encode body = inl b
    /\ http.Body req = Some (http.NopCloser b)
    /\ exists getBody,
        http.GetBody req = Some getBody
        /\ forall u, getBody u = inl (http.NopCloser b)
                     /\ http.unread (http.NopCloser b) = b.
Proof.
  intros Hreq. apply newJSONRequest_inl in Hreq as (b & req0 & Hb & Hreq0 & ->).
  exists b. split; [exact Hb|]. split.
  - simpl. now rewrite (newRequest_Body _ _ _ _ _ _ Hreq0).
  - eexists. split; [reflexivity|]. intros u. split; reflexivity.
Qed.

Lemma json_body_replays_witness :
  exists b,
    b = Scenario.bytes "true" ++ [x0a]
    /\ http.Body Scenario.postJSON = Some (http.NopCloser b)
    /\ exists getBody,
        http.GetBody Scenario.postJSON = Some getBody
        /\ getBody tt = inl (http.NopCloser b).
Proof.
  destruct (json_body_replays (H := Scenario.bool_Marshaler) Scenario.accept
              Scenario.alice "POST" "/y" true Scenario.postJSON eq_refl)
    as (b & Hb & HB & g & Hg & Hall).
  exists b. split; [now injection Hb as <-|]. split; [exact HB|].
  exists g. split; [exact Hg|]. apply Hall.
Defined.

(** ** The transport executor, one turn at a time *)

Section Executor.
Context {E W : Type}.
Variable D : Transport W.
Variable k : Collaborators E W.
Implicit Types (c : Client E) (req : http.Request) (w : W).

(** A request cannot be retried exactly when it has a body and no
    replay function. *)
Lemma canRetry_false req :
  canRetry req = false <->
  (exists b, http.Body req = Some b) /\ http.GetBody req = None.
Proof.
  unfold canRetry. destruct (http.Body req), (http.GetBody req); simpl; split;
    try discriminate; try (intros [[b Hb] Hg]; discriminate); eauto.
Qed.

(** A transport error ends the call at once. *)
Lemma attempt_transport_error c req w r e w1 :
  httpClient D k req w = (Fail r e, w1) ->
  attempt D k c req w = Return (Fail r e) c req w1.
Proof. intros H. unfold attempt. now rewrite H. Qed.

(** A response that does not pass the guard is returned as it is. *)
Lemma attempt_no_retry c req w resp w1 :
  httpClient D k req w = (Ok resp, w1) ->
  retryGuard (hookConfigured k) resp req = false ->
  attempt D k c req w = Return (Ok resp) c req w1.
Proof.
  intros H G. unfold attempt. rewrite H.
  unfold retryGuard, hookConfigured in G.
  destruct (http.StatusCode resp =? http.StatusUnauthorized), (hasAuth req),
    (ReAuth k), (canRetry req); simpl in *; try reflexivity; discriminate.
Qed.

(** A response that passes the guard: the body is closed, the token is
    cleared, the hook runs, and its error ends the call. *)
Lemma attempt_retry c req w resp w1 h e c2 w2 :
  httpClient D k req w = (Ok resp, w1) ->
  retryGuard (hookConfigured k) resp req = true ->
  ReAuth k = Some h ->
  h (set_accessToken c EmptyString) w1 = (e, c2, w2) ->
  attempt D k c req w
  = match e with
    | Some err => Return (Fail (Some (http.CloseBody resp)) err) c2 req w2
    | None => resend (http.CloseBody resp) c2 req w2
    end.
Proof.
  intros H G Hk Hh. unfold attempt. rewrite H.
  unfold retryGuard, hookConfigured in G. rewrite Hk in *.
  destruct (http.StatusCode resp =? http.StatusUnauthorized), (hasAuth req),
    (canRetry req); simpl in G; try discriminate.
  simpl. rewrite Hh. reflexivity.
Qed.

(** The guard holds only when a hook is configured. *)
Lemma retryGuard_hook resp req :
  retryGuard (hookConfigured k) resp req = true -> exists h, ReAuth k = Some h.
Proof.
  unfold retryGuard, hookConfigured. destruct (ReAuth k); [eauto|].
  rewrite andb_false_r. discriminate.
Qed.

(** A request that can be retried has a replay function if it has a
    body, also after authorization was attached again. *)
Lemma resend_no_NilCall resp c req w :
  canRetry req = true -> resend resp c req w <> NilCall.
Proof.
  intros Hc. unfold resend.
  rewrite setRequestAuthorization_Body, setRequestAuthorization_GetBody.
  unfold canRetry in Hc.
  destruct (http.Body req); [|discriminate].
  destruct (http.GetBody req) as [g|]; [|discriminate].
  destruct (g tt); discriminate.
Qed.

(** [do] never calls a [nil] replay function. *)
Lemma attempt_no_NilCall c req w : attempt D k c req w <> NilCall.
Proof.
  destruct (httpClient D k req w) as [[resp|r e] w1] eqn:H.
  - destruct (retryGuard (hookConfigured k) resp req) eqn:G.
    + destruct (retryGuard_hook _ _ G) as [h Hk].
      destruct (h (set_accessToken c EmptyString) w1) as [[e c2] w2] eqn:Hh.
      rewrite (attempt_retry _ _ _ _ _ _ _ _ _ H G Hk Hh).
      destruct e; [discriminate|]. apply resend_no_NilCall.
      unfold retryGuard in G. now apply andb_prop in G as [_ ->].
    + rewrite (attempt_no_retry _ _ _ _ _ H G). discriminate.
  - rewrite (attempt_transport_error _ _ _ _ _ _ H). discriminate.
Qed.

Lemma do_never_panics fuel c req w : do D fuel k c req w <> Some Panicked.
Proof.
  revert c req w. induction fuel as [|fuel IH]; intros c req w; [discriminate|].
  cbn [do]. pose proof (attempt_no_NilCall c req w) as Hn.
  destruct (attempt D k c req w); [discriminate|apply IH|congruence].
Qed.

(** When a request is resent, it still passes the parts of the guard
    that depend on it. *)
Lemma resend_Again resp c req w c' req' w' :
  resend resp c req w = Again c' req' w' ->
  c' = c /\ w' = w
  /\ http.Header req' = http.Header (setRequestAuthorization c req)
  /\ http.GetBody req' = http.GetBody req
  /\ (http.Body req = None -> http.Body req' = None)
  /\ (forall b, http.Body req = Some b ->
      exists g body, http.GetBody req = Some g /\ g tt = inl body
                     /\ http.Body req' = Some body).
Proof.
  unfold resend. rewrite setRequestAuthorization_Body.
  destruct (http.Body req) as [b|] eqn:HB.
  - destruct (http.GetBody (setRequestAuthorization c req)) as [g|] eqn:HG;
      [|discriminate].
    rewrite setRequestAuthorization_GetBody in HG.
    destruct (g tt) as [body|err] eqn:Hg; [|discriminate].
    intros [= <- <- <-]. simpl. rewrite setRequestAuthorization_GetBody.
    repeat split; try congruence. intros b' _. exists g, body. now repeat split.
  - intros [= <- <- <-]. rewrite setRequestAuthorization_GetBody.
    repeat split.
    + intros _. now rewrite setRequestAuthorization_Body.
    + intros b' Hb'. discriminate.
Qed.

End Executor.

(** ** Runs with a journal *)

Section Recorded.
Context {E W : Type}.
Variable D : Transport W.
Variable k : Collaborators E W.
Implicit Types (c : Client E) (req : http.Request) (w : W) (j : list (Event E)).

Lemma httpClient_recording req w j res w1 :
  httpClient D k req w = (res, w1) ->
  httpClient (journaled D) (recording k) req (w, j) = (res, (w1, j ++ [Sent req res])).
Proof.
  unfold httpClient, recording. simpl.
  destruct (HTTPClient k); simpl; unfold journaled; simpl; now intros ->.
Qed.

Lemma hookConfigured_recording : hookConfigured (recording k) = hookConfigured k.
Proof. unfold hookConfigured, recording. simpl. now destruct (ReAuth k). Qed.

Lemma ReAuth_recording h :
  ReAuth k = Some h -> ReAuth (recording k) = Some (journaledHook h).
Proof. unfold recording. simpl. now intros ->. Qed.

Lemma journaledHook_eq h c w j e c2 w2 :
  h c w = (e, c2, w2) ->
  journaledHook h c (w, j) = (e, c2, (w2, j ++ [Refreshed c c2 e])).
Proof. unfold journaledHook. simpl. now intros ->. Qed.

(** The turns of a recorded run, case by case. *)
Lemma attempt_recorded_error c req w j r e w1 :
  httpClient D k req w = (Fail r e, w1) ->
  attempt (journaled D) (recording k) c req (w, j)
  = Return (Fail r e) c req (w1, j ++ [Sent req (Fail r e)]).
Proof.
  intros H. apply attempt_transport_error. now apply httpClient_recording.
Qed.

Lemma attempt_recorded_no_retry c req w j resp w1 :
  httpClient D k req w = (Ok resp, w1) ->
  retryGuard (hookConfigured k) resp req = false ->
  attempt (journaled D) (recording k) c req (w, j)
  = Return (Ok resp) c req (w1, j ++ [Sent req (Ok resp)]).
Proof.
  intros H G. apply attempt_no_retry; [now apply httpClient_recording|].
  now rewrite hookConfigured_recording.
Qed.

Lemma attempt_recorded_retry c req w j resp w1 h e c2 w2 :
  httpClient D k req w = (Ok resp, w1) ->
  retryGuard (hookConfigured k) resp req = true ->
  ReAuth k = Some h ->
  h (set_accessToken c EmptyString) w1 = (e, c2, w2) ->
  let j' := j ++ [Sent req (Ok resp); Refreshed (set_accessToken c EmptyString) c2 e] in
  attempt (journaled D) (recording k) c req (w, j)
  = match e with
    | Some err => Return (Fail (Some (http.CloseBody resp)) err) c2 req (w2, j')
    | None => resend (http.CloseBody resp) c2 req (w2, j')
    end.
Proof.
  intros H G Hk Hh j'.
  rewrite (attempt_retry (journaled D) (recording k) c req (w, j) resp
             (w1, j ++ [Sent req (Ok resp)]) (journaledHook h) e c2 (w2, j')).
  - reflexivity.
  - now apply httpClient_recording.
  - now rewrite hookConfigured_recording.
  - now apply ReAuth_recording.
  - rewrite (journaledHook_eq _ _ _ _ _ _ _ Hh). unfold j'.
    now rewrite <- app_assoc.
Qed.

(** [resend] does not look at the world. *)
Lemma resend_world {W1 W2 : Type} resp c req (w1 : W1) (w2 : W2) :
  match resend resp c req w1, resend resp c req w2 with
  | Return r1 c1 q1 x1, Return r2 c2 q2 x2 =>
      r1 = r2 /\ c1 = c /\ c2 = c /\ q1 = q2 /\ x1 = w1 /\ x2 = w2
  | Again c1 q1 x1, Again c2 q2 x2 =>
      c1 = c /\ c2 = c /\ q1 = q2 /\ x1 = w1 /\ x2 = w2
  | NilCall, NilCall => True
  | _, _ => False
  end.
Proof.
  unfold resend. destruct (http.Body _); [|now repeat split].
  destruct (http.GetBody _) as [g|]; [|exact I].
  destruct (g tt); now repeat split.
Qed.

Lemma clearedBeforeHook_retry hook req resp (before after : Client E) e
    (js : list (Event E)) :
  retryGuard hook resp req = true ->
  accessToken before = EmptyString ->
  clearedBeforeHook hook js = true ->
  clearedBeforeHook hook ([Sent req (Ok resp); Refreshed before after e] ++ js) = true.
Proof. intros G Hb Hjs. simpl. rewrite G, Hb. exact Hjs. Qed.

(** A recorded run returns what the plain run returns; its journal
    obeys the discipline of the access token, and the client it leaves
    is the one left by the last hook call. *)
Lemma do_recorded fuel : forall c req w j out,
  do (journaled D) fuel (recording k) c req (w, j) = Some out ->
  exists res c' req' w' js,
    out = Returned res c' req' (w', j ++ js)
    /\ clearedBeforeHook (hookConfigured k) js = true
    /\ c' = clientAfter c js
    /\ do D fuel k c req w = Some (Returned res c' req' w').
Proof.
  induction fuel as [|fuel IH]; intros c req w j out; [discriminate|].
  cbn [do].
  destruct (httpClient D k req w) as [[resp|r e] w1] eqn:H.
  - destruct (retryGuard (hookConfigured k) resp req) eqn:G.
    + destruct (retryGuard_hook _ _ _ G) as [h Hk].
      destruct (h (set_accessToken c EmptyString) w1) as [[e c2] w2] eqn:Hh.
      rewrite (attempt_recorded_retry c req w j resp w1 h e c2 w2 H G Hk Hh).
      rewrite (attempt_retry D k c req w resp w1 h e c2 w2 H G Hk Hh).
      cbv zeta. destruct e as [err|].
      * intros [= <-]. eexists _, _, _, _, _. split; [reflexivity|].
        split; [|split; reflexivity]. simpl. now rewrite G.
      * set (j' := j ++ _).
        pose proof (resend_world (http.CloseBody resp) c2 req (w2, j') w2) as Hw.
        assert (Hn : resend (http.CloseBody resp) c2 req w2 <> NilCall).
        { apply resend_no_NilCall. unfold retryGuard in G.
          now apply andb_prop in G as [_ ->]. }
        destruct (resend (http.CloseBody resp) c2 req (w2, j'))
          as [r1 c1 q1 x1|c1 q1 x1|];
          destruct (resend (http.CloseBody resp) c2 req w2)
          as [r1' c1' q1' x1'|c1' q1' x1'|]; try contradiction.
        -- destruct Hw as (<- & -> & -> & <- & -> & ->). intros [= <-].
           eexists _, _, _, _, _. unfold j'. split; [reflexivity|].
           split; [|split; reflexivity].
           simpl. now rewrite G.
        -- destruct Hw as (-> & -> & <- & -> & ->). intros Hdo.
           apply IH in Hdo as (res & c' & req' & w' & js & -> & Hjs & -> & Hplain).
           exists res, (clientAfter c2 js), req', w',
             ([Sent req (Ok resp); Refreshed (set_accessToken c EmptyString) c2 None]
                ++ js).
           unfold j'. rewrite <- app_assoc. split; [reflexivity|].
           split; [now apply clearedBeforeHook_retry|]. split; [reflexivity|].
           exact Hplain.
    + rewrite (attempt_recorded_no_retry c req w j resp w1 H G).
      rewrite (attempt_no_retry D k c req w resp w1 H G).
      intros [= <-]. eexists _, _, _, _, _. split; [reflexivity|].
      split; [|split; reflexivity]. simpl. now rewrite G.
  - rewrite (attempt_recorded_error c req w j r e w1 H).
    rewrite (attempt_transport_error D k c req w r e w1 H).
    intros [= <-]. eexists _, _, _, _, _. split; [reflexivity|].
    now repeat split.
Qed.

End Recorded.

(** ** The claims on the transport executor *)

Lemma replayable_canRetry (req : http.Request) : replayable req -> canRetry req = true.
Proof.
  unfold replayable, canRetry. intros [->|(g & body & -> & _)]; [reflexivity|].
  now rewrite orb_true_r.
Qed.

Lemma resend_replayable {E W : Type} resp (c : Client E) req (w : W) :
  replayable req ->
  exists req',
    resend resp c req w = Again c req' w
    /\ http.Header req' = http.Header (setRequestAuthorization c req)
    /\ replayable req'.
Proof.
  intros Hr. unfold resend.
  rewrite setRequestAuthorization_Body, setRequestAuthorization_GetBody.
  destruct (http.Body req) as [b|] eqn:HB.
  - destruct Hr as [Hr|(g & body & Hg & Hb)]; [congruence|]. rewrite Hg, Hb.
    eexists. split; [reflexivity|]. split; [reflexivity|].
    right. exists g, body. simpl. rewrite setRequestAuthorization_GetBody. now split.
  - eexists. split; [reflexivity|]. split; [reflexivity|].
    left. now rewrite setRequestAuthorization_Body.
Qed.

Lemma guard_fails {E W : Type} (k : Collaborators E W) resp req :
  hasAuth req = false \/ ReAuth k = None
  \/ ((exists b, http.Body req = Some b) /\ http.GetBody req = None) ->
  retryGuard (hookConfigured k) resp req = false.
Proof.
  unfold retryGuard, hookConfigured. intros [H|[H|H]].
  - rewrite H. now rewrite andb_false_r.
  - rewrite H. now rewrite andb_false_r.
  - apply canRetry_false in H. rewrite H. now rewrite andb_false_r.
Qed.

Lemma guard_holds {E W : Type} (k : Collaborators E W) resp req h :
  http.StatusCode resp = http.StatusUnauthorized ->
  hasAuth req = true -> ReAuth k = Some h -> canRetry req = true ->
  retryGuard (hookConfigured k) resp req = true.
Proof.
  unfold retryGuard, hookConfigured. intros -> -> -> ->. reflexivity.
Qed.

(** C2.  When an unauthorized response arrives and one of the three
    guard conditions fails (the request has no authorization header, or
    no hook is configured, or the request has a body and no replay
    function), the call returns at once: the response is the one the
    transport gave, unmodified, the client (and so its access token) is as
    before, and the journal of the call holds the one send and no hook
    call. *)
Theorem guard_failure_returns_response {E W : Type} (D : Transport W)
    (k : Collaborators E W) (c : Client E) (req : http.Request) (w w1 : W)
    (j : list (Event E)) (resp : http.Response) (fuel : nat) :
  httpClient D k req w = (Ok resp, w1) ->
  http.StatusCode resp = http.StatusUnauthorized ->
  (hasAuth req = false \/ ReAuth k = None
   \/ ((exists b, http.Body req = Some b) /\ http.GetBody req = None)) ->
  do D (S fuel) k c req w = Some (Returned (Ok resp) c req w1)
  /\ do (journaled D) (S fuel) (recording k) c req (w, j)
     = Some (Returned (Ok resp) c req (w1, j ++ [Sent req (Ok resp)])).
Proof.
  intros H _ Hg. apply (guard_fails k resp) in Hg. cbn [do].
  rewrite (attempt_no_retry D k c req w resp w1 H Hg).
  rewrite (attempt_recorded_no_retry D k c req w j resp w1 H Hg).
  now split.
Qed.

Lemma guard_failure_returns_response_witness :
  do Scenario.offline 1 Scenario.withoutHook Scenario.alice Scenario.getX
     [Ok Scenario.unauthorized]
  = Some (Returned (Ok Scenario.unauthorized) Scenario.alice Scenario.getX [])
  /\ do (journaled Scenario.offline) 1 (recording Scenario.withoutHook)
        Scenario.alice Scenario.postStream ([Ok Scenario.unauthorized], [])
     = Some (Returned (Ok Scenario.unauthorized) Scenario.alice Scenario.postStream
               ([], [] ++ [Sent Scenario.postStream (Ok Scenario.unauthorized)])).
Proof.
  split.
  - apply (guard_failure_returns_response Scenario.offline Scenario.withoutHook
             Scenario.alice Scenario.getX [Ok Scenario.unauthorized] [] []
             Scenario.unauthorized 0 eq_refl eq_refl).
    right. left. reflexivity.
  - apply (guard_failure_returns_response Scenario.offline Scenario.withoutHook
             Scenario.alice Scenario.postStream [Ok Scenario.unauthorized] [] []
             Scenario.unauthorized 0 eq_refl eq_refl).
    right. left. reflexivity.
Defined.

(** C3 (as the code has it).  When an unauthorized response passes the
    guard and the hook returns an error, the call ends with that error
    (beside the closed response): the journal holds the one send and the
    one hook call, so the request is not sent again.  The hook was called
    on a client whose access token was empty, and the client the call
    leaves is the one the hook left: the value the token had before the
    failure is not put back, and the token is empty if the hook did not
    write it. *)
Theorem reauth_error_ends_call {E W : Type} (D : Transport W)
    (k : Collaborators E W) (c c2 : Client E) (req : http.Request) (w w1 w2 : W)
    (j : list (Event E)) (resp : http.Response) (h : Hook E W) (e : error)
    (fuel : nat) :
  httpClient D k req w = (Ok resp, w1) ->
  http.StatusCode resp = http.StatusUnauthorized ->
  hasAuth req = true -> canRetry req = true -> ReAuth k = Some h ->
  h (set_accessToken c EmptyString) w1 = (Some e, c2, w2) ->
  do D (S fuel) k c req w
  = Some (Returned (Fail (Some (http.CloseBody resp)) e) c2 req w2)
  /\ do (journaled D) (S fuel) (recording k) c req (w, j)
     = Some (Returned (Fail (Some (http.CloseBody resp)) e) c2 req
               (w2, j ++ [Sent req (Ok resp);
                          Refreshed (set_accessToken c EmptyString) c2 (Some e)]))
  /\ accessToken (set_accessToken c EmptyString) = EmptyString
  /\ (accessToken c2 = accessToken (set_accessToken c EmptyString) ->
      accessToken c2 = EmptyString).
Proof.
  intros H Hs Ha Hc Hk Hh.
  pose proof (guard_holds k resp req h Hs Ha Hk Hc) as G. cbn [do].
  rewrite (attempt_retry D k c req w resp w1 h (Some e) c2 w2 H G Hk Hh).
  rewrite (attempt_recorded_retry D k c req w j resp w1 h (Some e) c2 w2 H G Hk Hh).
  split; [reflexivity|]. split; [reflexivity|]. split; [reflexivity|].
  intros Htok. exact Htok.
Qed.

Lemma reauth_error_ends_call_witness :
  let e := ErrExternal "refresh failed" in
  let k := Scenario.withHook (failing e) in
  do Scenario.offline 1 k Scenario.alice Scenario.getX [Ok Scenario.unauthorized]
  = Some (Returned (Fail (Some (http.CloseBody Scenario.unauthorized)) e)
            (set_accessToken Scenario.alice EmptyString) Scenario.getX [])
  /\ accessToken (set_accessToken Scenario.alice EmptyString) = EmptyString.
Proof.
  intros e k.
  destruct (reauth_error_ends_call Scenario.offline k Scenario.alice
              (set_accessToken Scenario.alice EmptyString) Scenario.getX
              [Ok Scenario.unauthorized] [] [] [] Scenario.unauthorized (failing e) e 0
              eq_refl eq_refl eq_refl eq_refl eq_refl eq_refl)
    as (H1 & _ & _ & H4).
  split; [exact H1|]. apply H4. reflexivity.
Defined.

(** C3 fails as stated: a hook that writes the access token [t9] and
    then returns an error ends the call with that error, and the access
    token of the client is [t9], not empty. *)
Lemma failing_hook_may_leave_a_token :
  let e := ErrExternal "refresh failed" in
  let o := do (journaled Scenario.offline) 1
             (recording (Scenario.withHook (Scenario.writingThenFailing e)))
             Scenario.alice Scenario.getX ([Ok Scenario.unauthorized], []) in
  match o with
  | Some (Returned (Fail _ e') _ _ _) => e' = e
  | _ => False
  end
  /\ sends (outcomeJournal o) = 1%nat
  /\ option_map accessToken (outcomeClient o) = Some "t9"%string.
Proof. vm_compute. repeat split; reflexivity. Qed.

(** C8 (as the code has it).  In every call that returns, each response
    that is unauthorized and passes the three guard conditions is followed
    at once by a hook call that finds the access token empty, the hook is
    called at no other time, and the client the call leaves is the one its
    last hook call left (the client it started with when the hook never
    ran): once cleared, the token is written by the hook only. *)
Theorem token_cleared_when_guard_holds {E W : Type} (D : Transport W)
    (k : Collaborators E W) (fuel : nat) (c c' : Client E) (req req' : http.Request)
    (w w' : W) (res : Result) (j : list (Event E)) :
  do (journaled D) fuel (recording k) c req (w, []) = Some (Returned res c' req' (w', j)) ->
  clearedBeforeHook (hookConfigured k) j = true
  /\ c' = clientAfter c j
  /\ do D fuel k c req w = Some (Returned res c' req' w').
Proof.
  intros H. apply do_recorded in H as (res0 & c0 & req0 & w0 & js & Heq & Hjs & Hc & Hp).
  injection Heq as -> -> -> -> ->. simpl. now repeat split.
Qed.

Lemma token_cleared_when_guard_holds_witness :
  let j := [Sent Scenario.getX (Ok Scenario.unauthorized);
            Refreshed (set_accessToken Scenario.alice EmptyString)
              (Scenario.newToken (set_accessToken Scenario.alice EmptyString)) None;
            Sent (setRequestAuthorization
                    (Scenario.newToken (set_accessToken Scenario.alice EmptyString))
                    Scenario.getX) (Ok Scenario.success)] in
  clearedBeforeHook true j = true
  /\ Scenario.newToken (set_accessToken Scenario.alice EmptyString)
     = clientAfter Scenario.alice j.
Proof.
  intros j.
  destruct (token_cleared_when_guard_holds Scenario.offline
              (Scenario.withHook (refreshing Scenario.newToken)) 2
              Scenario.alice (Scenario.newToken (set_accessToken Scenario.alice EmptyString))
              Scenario.getX
              (setRequestAuthorization
                 (Scenario.newToken (set_accessToken Scenario.alice EmptyString))
                 Scenario.getX)
              [Ok Scenario.unauthorized; Ok Scenario.success] []
              (Ok Scenario.success) j eq_refl) as (H1 & H2 & _).
  split; [exact H1|exact H2].
Defined.

(** C8 fails as stated: an unauthorized response is observed by a client
    that has no hook, the guard does not hold, and the access token [t1]
    is still there when the call returns. *)
Lemma unauthorized_without_hook_keeps_token :
  let o := do (journaled Scenario.offline) 1 (recording Scenario.withoutHook)
             Scenario.alice Scenario.getX ([Ok Scenario.unauthorized], []) in
  List.map eventStatus (outcomeJournal o) = [Some 401]
  /\ option_map accessToken (outcomeClient o) = Some "t1"%string.
Proof. vm_compute. split; reflexivity. Qed.

Lemma sends_app {E : Type} (a b : list (Event E)) : sends (a ++ b) = (sends a + sends b)%nat.
Proof. unfold sends. now rewrite List.filter_app, length_app. Qed.

Lemma refreshes_app {E : Type} (a b : list (Event E)) :
  refreshes (a ++ b) = (refreshes a + refreshes b)%nat.
Proof. unfold refreshes. now rewrite List.filter_app, length_app. Qed.

(** C1 (as the code has it).  A resent request goes through the whole
    procedure again, so every unauthorized response is answered by a hook
    call and a resend, as long as the hook succeeds: against a server that
    answers [n] times with an unauthorized response and then with a result
    that is not one, a request with an authorization header and a
    replayable body is sent [n + 1] times, the hook runs [n] times, and
    the call returns the last result.  The number of retries has no bound
    in the code. *)
Theorem retry_after_every_unauthorized {E : Type} (D : Transport (list Result))
    (f : Client E -> Client E) (resps : list http.Response) (final : Result) :
  Forall (fun r => http.StatusCode r = http.StatusUnauthorized) resps ->
  terminal final ->
  forall (c : Client E) (req : http.Request) (j : list (Event E)),
    hasAuth req = true -> replayable req ->
    exists c' req' js,
      do (journaled D) (S (length resps))
         (recording (mkCollaborators (Some scripted) (Some (refreshing f))))
         c req (List.map Ok resps ++ [final], j)
      = Some (Returned final c' req' ([], j ++ js))
      /\ sends js = S (length resps)
      /\ refreshes js = length resps.
Proof.
  intros Hall Hfin.
  set (k := mkCollaborators (Some scripted) (Some (refreshing f))).
  induction Hall as [|resp resps Hresp Hall IH]; intros c req j Ha Hr.
  - cbn [length List.map app do].
    destruct final as [r|r e].
    + assert (G : retryGuard (hookConfigured k) r req = false).
      { unfold retryGuard. simpl in Hfin. apply Z.eqb_neq in Hfin. now rewrite Hfin. }
      rewrite (attempt_recorded_no_retry D k c req [Ok r] j r [] eq_refl G).
      exists c, req, [Sent req (Ok r)]. now repeat split.
    + rewrite (attempt_recorded_error D k c req [Fail r e] j r e [] eq_refl).
      exists c, req, [Sent req (Fail r e)]. now repeat split.
  - cbn [length List.map app].
    change (do (journaled D) (S (S (length resps))) (recording k) c req
              (Ok resp :: List.map Ok resps ++ [final], j))
      with (match attempt (journaled D) (recording k) c req
                    (Ok resp :: List.map Ok resps ++ [final], j) with
            | Return res c0 req0 w0 => Some (Returned res c0 req0 w0)
            | Again c0 req0 w0 => do (journaled D) (S (length resps)) (recording k) c0 req0 w0
            | NilCall => Some Panicked
            end).
    assert (G : retryGuard (hookConfigured k) resp req = true).
    { apply (guard_holds k resp req (refreshing f)); auto using replayable_canRetry. }
    rewrite (attempt_recorded_retry D k c req (Ok resp :: List.map Ok resps ++ [final]) j
               resp (List.map Ok resps ++ [final]) (refreshing f) None
               (f (set_accessToken c EmptyString)) (List.map Ok resps ++ [final])
               eq_refl G eq_refl eq_refl).
    cbv zeta.
    destruct (resend_replayable (W := list Result * list (Event E))
                (http.CloseBody resp) (f (set_accessToken c EmptyString)) req
                (List.map Ok resps ++ [final],
                 j ++ [Sent req (Ok resp);
                       Refreshed (set_accessToken c EmptyString)
                         (f (set_accessToken c EmptyString)) None]) Hr)
      as (req2 & -> & Hh & Hr2).
    assert (Ha2 : hasAuth req2 = true).
    { unfold hasAuth. rewrite Hh.
      apply (setRequestAuthorization_hasAuth (f (set_accessToken c EmptyString))) in Ha.
      exact Ha. }
    destruct (IH (f (set_accessToken c EmptyString)) req2
                (j ++ [Sent req (Ok resp);
                       Refreshed (set_accessToken c EmptyString)
                         (f (set_accessToken c EmptyString)) None]) Ha2 Hr2)
      as (c' & req' & js & Hdo & Hs & Hf).
    exists c', req',
      ([Sent req (Ok resp);
        Refreshed (set_accessToken c EmptyString) (f (set_accessToken c EmptyString)) None]
         ++ js).
    split; [|split].
    + rewrite Hdo. now rewrite <- app_assoc.
    + rewrite sends_app, Hs. reflexivity.
    + rewrite refreshes_app, Hf. reflexivity.
Qed.

Lemma retry_after_every_unauthorized_witness :
  exists c' req' js,
    do (journaled Scenario.offline) 3
       (recording (mkCollaborators (Some scripted) (Some (refreshing Scenario.newToken))))
       Scenario.alice Scenario.getX
       ([Ok Scenario.unauthorized; Ok Scenario.unauthorized; Ok Scenario.success], [])
    = Some (Returned (Ok Scenario.success) c' req' ([], [] ++ js))
    /\ sends js = 3%nat /\ refreshes js = 2%nat.
Proof.
  apply (retry_after_every_unauthorized Scenario.offline Scenario.newToken
           [Scenario.unauthorized; Scenario.unauthorized] (Ok Scenario.success)).
  - repeat constructor.
  - simpl. discriminate.
  - reflexivity.
  - left. reflexivity.
Defined.

(** C1 fails as stated: the server answers twice with an unauthorized
    response and then with success.  After the first re-authentication
    and resend, the second unauthorized response is not the outcome of the
    call: the hook runs a second time, the request is sent a third time,
    and the call returns the response with status 200. *)
Lemma second_unauthorized_is_retried :
  let o := do (journaled Scenario.offline) 3
             (recording (Scenario.withHook (refreshing Scenario.newToken)))
             Scenario.alice Scenario.getX
             ([Ok Scenario.unauthorized; Ok Scenario.unauthorized; Ok Scenario.success],
              []) in
  outcomeStatus o = Some 200
  /\ List.map eventStatus (List.filter isSent (outcomeJournal o))
     = [Some 401; Some 401; Some 200]
  /\ sends (outcomeJournal o) = 3%nat
  /\ refreshes (outcomeJournal o) = 2%nat.
Proof. vm_compute. repeat split; reflexivity. Qed.

Lemma authCookieText_not_empty {E : Type} (c : Client E) :
  gostring.is_empty (authCookieText c) = false.
Proof. reflexivity. Qed.

(** C10.  On the retry path, after the hook has succeeded, authorization
    is attached again to the same request: the session-identity header and
    the bearer authorization header are overwritten and hold one value
    each, but the auth cookie is appended to the cookie line.  When the
    request carried the auth cookie of the original attempt and the
    session identifier is unchanged, the request that is sent again
    carries two cookies named [AUTH-] followed by the session
    identifier. *)
Theorem retry_appends_second_cookie {E W : Type} (D : Transport W)
    (k : Collaborators E W) (c c2 : Client E) (req : http.Request) (w w1 w2 : W)
    (resp : http.Response) (h : Hook E W) :
  httpClient D k req w = (Ok resp, w1) ->
  http.StatusCode resp = http.StatusUnauthorized ->
  hasAuth req = true -> replayable req -> ReAuth k = Some h ->
  h (set_accessToken c EmptyString) w1 = (None, c2, w2) ->
  uid c <> EmptyString -> authToken c <> EmptyString ->
  uid c2 = uid c -> authToken c2 <> EmptyString ->
  http.Header req !! "Cookie"%string = Some [authCookieText c] ->
  exists req2,
    attempt D k c req w = Again c2 req2 w2
    /\ (forall fuel, do D (S fuel) k c req w = do D fuel k c2 req2 w2)
    /\ (let name := http.sanitizeCookieName ("AUTH-" +:+ uid c) in
        http.Header req2 !! "Cookie"%string
        = Some [(name +:+ "=" +:+ url.QueryEscape (authToken c))
                  +:+ "; " +:+ (name +:+ "=" +:+ url.QueryEscape (authToken c2))])
    /\ http.Header req2 !! "X-Pm-Uid"%string = Some [uid c2]
    /\ (accessToken c2 <> EmptyString ->
        http.Header req2 !! "Authorization"%string = Some ["Bearer " +:+ accessToken c2]).
Proof.
  intros H Hs Ha Hr Hk Hh Hu Ht Hu2 Ht2 Hcookie.
  assert (Hu2' : uid c2 <> EmptyString) by congruence.
  pose proof (guard_holds k resp req h Hs Ha Hk (replayable_canRetry req Hr)) as G.
  destruct (resend_replayable (http.CloseBody resp) c2 req w2 Hr) as (req2 & Hre & Hh2 & _).
  assert (Hatt : attempt D k c req w = Again c2 req2 w2).
  { rewrite (attempt_retry D k c req w resp w1 h None c2 w2 H G Hk Hh). exact Hre. }
  exists req2. split; [exact Hatt|]. split; [|split; [|split]].
  - intros fuel. cbn [do]. now rewrite Hatt.
  - cbv zeta. rewrite Hh2, (setRequestAuthorization_Cookie c2 req Hu2' Ht2).
    cbv zeta. unfold http.Header_Get. rewrite Hcookie.
    rewrite authCookieText_not_empty. unfold authCookieText. now rewrite Hu2.
  - rewrite Hh2. now apply setRequestAuthorization_Uid.
  - intros Hacc. rewrite Hh2. now apply setRequestAuthorization_Bearer.
Qed.

Lemma retry_appends_second_cookie_witness :
  exists req2,
    attempt Scenario.offline (Scenario.withHook (refreshing Scenario.newToken))
      Scenario.alice Scenario.getX [Ok Scenario.unauthorized; Ok Scenario.success]
    = Again (Scenario.newToken (set_accessToken Scenario.alice EmptyString)) req2
        [Ok Scenario.success]
    /\ http.Header req2 !! "Cookie"%string = Some ["AUTH-u1=a+1; AUTH-u1=a+1"%string]
    /\ http.Header req2 !! "Authorization"%string = Some ["Bearer t2"%string].
Proof.
  assert (Hne : forall s : string, s <> EmptyString -> s <> EmptyString) by auto.
  destruct (retry_appends_second_cookie Scenario.offline
              (Scenario.withHook (refreshing Scenario.newToken)) Scenario.alice
              (Scenario.newToken (set_accessToken Scenario.alice EmptyString))
              Scenario.getX [Ok Scenario.unauthorized; Ok Scenario.success]
              [Ok Scenario.success] [Ok Scenario.success] Scenario.unauthorized
              (refreshing Scenario.newToken) eq_refl eq_refl eq_refl
              (or_introl eq_refl) eq_refl eq_refl
              (Hne "u1"%string ltac:(discriminate)) (Hne "a 1"%string ltac:(discriminate))
              eq_refl (Hne "a 1"%string ltac:(discriminate)) eq_refl)
    as (req2 & H1 & _ & H3 & _ & H5).
  exists req2. split; [exact H1|]. split; [exact H3|].
  apply H5. discriminate.
Defined.

(** ** The claims on the response decoder *)

Lemma foldEq_Code_Error (key : string) :
  json.foldEq key "Code" = true -> json.foldEq key "Error" = false.
Proof.
  unfold json.foldEq. intros H%String.eqb_eq. rewrite H. reflexivity.
Qed.

(** What storing the members of an object does to the embedded error
    record: it is there afterwards exactly when it was there before or a
    member selects the field [Error]. *)
Lemma members_RawAPIError (members : list (string * json.value)) :
  forall (r : resp.t) (saved : option error),
    (exists m, resp.RawAPIError (fst (fold_left resp.member members (r, saved))) = Some m)
    <-> ((exists m, resp.RawAPIError r = Some m) \/ existsb selectsError members = true).
Proof.
  induction members as [|[key v] members IH]; intros r saved.
  - simpl. split; [tauto|]. intros [H|H]; [exact H|discriminate].
  - cbn [fold_left existsb].
    destruct (resp.member (r, saved) (key, v)) as [r1 s1] eqn:Hm.
    rewrite (IH r1 s1).
    change (selectsError (key, v)) with (json.foldEq key "Error").
    unfold resp.member in Hm.
    destruct (json.foldEq key "Code") eqn:HC.
    + rewrite (foldEq_Code_Error key HC). cbn [orb].
      assert (resp.RawAPIError r1 = resp.RawAPIError r) as ->; [|tauto].
      destruct v; try (injection Hm as <- _; reflexivity).
      destruct (json.parseInt64 lit); injection Hm as <- _; reflexivity.
    + destruct (json.foldEq key "Error") eqn:HE.
      * cbn [orb]. split; [tauto|]. intros _. left.
        destruct v; injection Hm as <- _; simpl; eauto.
      * cbn [orb]. injection Hm as <- _. tauto.
Qed.

(** The error that the decode step returns for a [nil] destination. *)
Lemma decodeResponse_new (resp : http.Response) :
  snd (decodeResponse resp (respDest resp.new))
  = if http.closed (http.RespBody resp) then Some (ErrExternal "read on closed body")
    else match json.readValue (http.unread (http.RespBody resp)) with
         | json.Value v =>
             match resp.store v resp.new with
             | (_, Some e) => Some e
             | (r, None) => resp.Err r
             end
         | json.SyntaxError => Some (ErrJSON "invalid character")
         | json.EOF => Some (ErrJSON "EOF")
         | json.UnexpectedEOF => Some (ErrJSON "unexpected EOF")
         end.
Proof.
  unfold decodeResponse, Decode.
  destruct (http.closed (http.RespBody resp)); [reflexivity|].
  destruct (json.readValue _) as [v| | |]; try reflexivity.
  cbn [pointee respDest dest_Unmarshaler]. unfold Unmarshal, resp_Unmarshaler.
  destruct (resp.store v resp.new) as [r [e|]]; [reflexivity|].
  cbn [dest_maybeError pointee]. unfold Err, resp_maybeError.
  change (dest_maybeError (respDest resp.new)) with (Some resp.Err).
  cbv beta iota. now destruct (resp.Err r).
Qed.

(** The only error that storing into a [resp] keeps is a type error. *)
Lemma members_saved (members : list (string * json.value)) :
  forall (r : resp.t) (saved : option error),
    saved = None \/ saved = Some resp.typeError ->
    snd (fold_left resp.member members (r, saved)) = None
    \/ snd (fold_left resp.member members (r, saved)) = Some resp.typeError.
Proof.
  induction members as [|[key v] members IH]; intros r saved Hs; [exact Hs|].
  cbn [fold_left].
  destruct (resp.member (r, saved) (key, v)) as [r1 s1] eqn:Hm.
  apply IH. unfold resp.member in Hm.
  assert (Hsave : match saved with Some e => Some e | None => Some resp.typeError end
                  = Some resp.typeError).
  { destruct Hs as [->| ->]; reflexivity. }
  rewrite Hsave in Hm.
  destruct (json.foldEq key "Code").
  - destruct v; try (injection Hm as _ <-; auto).
    destruct (json.parseInt64 lit); injection Hm as _ <-; auto.
  - destruct (json.foldEq key "Error"); [|injection Hm as _ <-; auto].
    destruct v; injection Hm as _ <-; auto.
Qed.

Lemma store_saved (v : json.value) (r : resp.t) :
  snd (resp.store v r) = None \/ snd (resp.store v r) = Some resp.typeError.
Proof.
  destruct v; simpl; auto. apply members_saved. now left.
Qed.

Lemma Err_APIError (r : resp.t) (ae : APIError.t) :
  resp.Err r = Some (ErrAPI ae) <->
  exists m, resp.RawAPIError r = Some m
            /\ ae = {| APIError.Code := resp.Code r;
                       APIError.Message := RawAPIError.Message m |}.
Proof.
  unfold resp.Err. destruct (resp.RawAPIError r) as [m|]; split.
  - intros [= <-]. now exists m.
  - intros (m' & [= <-] & ->). reflexivity.
  - discriminate.
  - intros (m' & H & _). discriminate.
Qed.

(** C4 (as the code has it).  With no destination shape, the decode step
    returns a typed API error exactly when the body is read and decoded
    without error and is an object with a member that selects the
    error-message field, whatever that message is.  The body
    [{"Code":2000}] gives no error and the body
    [{"Code":401,"Error":"invalid token"}] gives the typed API error with
    code 401 and message [invalid token]. *)
Theorem api_error_iff_error_member :
  (forall resp : http.Response,
      (exists ae, snd (decodeResponse resp (respDest resp.new)) = Some (ErrAPI ae))
      <-> (http.closed (http.RespBody resp) = false
           /\ exists members,
               json.readValue (http.unread (http.RespBody resp))
               = json.Value (json.JObject members)
               /\ snd (resp.store (json.JObject members) resp.new) = None
               /\ existsb selectsError members = true))
  /\ snd (decodeResponse (Scenario.respond 200 Scenario.bodyCode2000) (respDest resp.new))
     = None
  /\ snd (decodeResponse (Scenario.respond 401 Scenario.bodyInvalidToken)
            (respDest resp.new))
     = Some (ErrAPI {| APIError.Code := 401; APIError.Message := "invalid token" |}).
Proof.
  split; [|split; vm_compute; reflexivity].
  intros resp. rewrite decodeResponse_new.
  destruct (http.closed (http.RespBody resp)).
  { split; [intros [ae H]; discriminate|intros [H _]; discriminate]. }
  destruct (json.readValue _) as [v| | |];
    try (split; [intros [ae H]; discriminate|intros (_ & ms & H & _); discriminate]).
  pose proof (store_saved v resp.new) as Hsaved.
  destruct (resp.store v resp.new) as [r [e|]] eqn:Hst; cbn [snd] in Hsaved.
  - destruct Hsaved as [Hs|Hs]; [discriminate|]. injection Hs as ->.
    split; [intros [ae H]; discriminate|].
    intros (_ & ms & [= ->] & Hnone & _). rewrite Hst in Hnone. discriminate.
  - split.
    + intros [ae (m & Hm & _)%Err_APIError]. split; [reflexivity|].
      destruct v; simpl in Hst; try discriminate.
      * injection Hst as <-. discriminate.
      * exists members. split; [reflexivity|]. simpl. rewrite Hst. split; [reflexivity|].
        pose proof (members_RawAPIError members resp.new None) as [Hex _].
        rewrite Hst in Hex. destruct Hex as [[m' Hm']|Hex]; eauto. discriminate.
    + intros (_ & ms & [= ->] & _ & Hex).
      pose proof (members_RawAPIError ms resp.new None) as [_ Hback].
      simpl in Hst. rewrite Hst in Hback. destruct Hback as [m Hm]; [now right|].
      eexists. apply Err_APIError. exists m. split; [exact Hm|reflexivity].
Qed.

(** C4 fails as stated: the body [{"Code":1000,"Error":""}] has an
    error-message field that is empty, and the decode step returns a typed
    API error all the same, with an empty message. *)
Lemma empty_message_is_an_api_error :
  snd (decodeResponse (Scenario.respond 200 Scenario.bodyEmptyMessage) (respDest resp.new))
  = Some (ErrAPI {| APIError.Code := 1000; APIError.Message := EmptyString |}).
Proof. vm_compute. reflexivity. Qed.

(** What the decoder leaves in a [*resp] destination is a [*resp]
    destination, and the only errors it returns are those of the stream
    and of [encoding/json]. *)
Lemma Decode_respDest (body : http.ReadCloser) (r0 : resp.t) :
  exists r e,
    Decode body (respDest r0) = (respDest r, e)
    /\ forall ae, e <> Some (ErrAPI ae).
Proof.
  unfold Decode. destruct (http.closed body).
  { exists r0. eexists. split; [reflexivity|]. discriminate. }
  destruct (json.readValue (http.unread body)) as [v| | |];
    try (exists r0; eexists; split; [reflexivity|discriminate]).
  cbn [pointee respDest dest_Unmarshaler carrier dest_maybeError].
  unfold Unmarshal, resp_Unmarshaler.
  pose proof (store_saved v r0) as Hs.
  destruct (resp.store v r0) as [r e]. exists r, e. split; [reflexivity|].
  cbn [snd] in Hs. destruct Hs as [-> | ->]; discriminate.
Qed.

(** C5.  The status code of a typed API error is the one of the
    envelope: when the decoded destination reports an error with a
    message, the typed API error returned by the decode step carries the
    [Code] of the decoded envelope as its code, together with that
    message; and the decode step returns a typed API error in no other
    case.  This holds for every destination of type [*resp], whatever it
    held before. *)
Theorem api_error_carries_envelope_code (resp : http.Response) (r0 : resp.t)
    (ae : APIError.t) :
  snd (decodeResponse resp (respDest r0)) = Some (ErrAPI ae)
  <-> exists r m,
        Decode (http.RespBody resp) (respDest r0) = (respDest r, None)
        /\ resp.RawAPIError r = Some m
        /\ ae = {| APIError.Code := resp.Code r;
                   APIError.Message := RawAPIError.Message m |}.
Proof.
  split.
  - unfold decodeResponse.
    destruct (Decode_respDest (http.RespBody resp) r0) as (r & e & HD & He).
    rewrite HD. destruct e as [e|].
    + cbn [snd]. intros [= ->]. now contradiction (He ae).
    + cbn [dest_maybeError respDest pointee]. unfold Err, resp_maybeError.
      destruct (resp.Err r) as [e|] eqn:HE; cbn [snd]; [|discriminate].
      intros [= ->]. apply Err_APIError in HE as (m & Hm & ->). now exists r, m.
  - intros (r & m & HD & Hm & ->). unfold decodeResponse. rewrite HD.
    cbn [dest_maybeError respDest pointee]. unfold Err, resp_maybeError, resp.Err.
    rewrite Hm. reflexivity.
Qed.

(** The code of a typed API error does not come from the HTTP status of
    the response: a response with status 200 whose body is
    [{"Code":401,"Error":"invalid token"}] gives the typed API error with
    code 401. *)
Lemma api_error_code_is_the_envelope_code :
  snd (decodeResponse (Scenario.respond 200 Scenario.bodyInvalidToken)
         (respDest resp.new))
  = Some (ErrAPI {| APIError.Code := 401; APIError.Message := "invalid token" |}).
Proof. vm_compute. reflexivity. Qed.

(** * Further properties of the code *)

(** ** The request builder *)

Lemma setRequestAuthorization_Method {E : Type} (c : Client E) (req : http.Request) :
  http.Method (setRequestAuthorization c req) = http.Method req
  /\ http.URL (setRequestAuthorization c req) = http.URL req.
Proof.
  unfold setRequestAuthorization, http.AddCookie.
  repeat (destruct (negb _) || destruct (gostring.is_empty _)); split; reflexivity.
Qed.

Lemma setRequestAuthorization_other {E : Type} (c : Client E) (req : http.Request)
    (key : string) :
  key <> "X-Pm-Uid"%string -> key <> "Cookie"%string -> key <> "Authorization"%string ->
  http.Header (setRequestAuthorization c req) !! key = http.Header req !! key.
Proof.
  intros H1 H2 H3. unfold setRequestAuthorization, http.AddCookie,
    http.Request_SetHeader, http.Header_Set.
  repeat (destruct (negb _) || destruct (gostring.is_empty _)); simpl;
    rewrite ?lookup_insert_ne by congruence; reflexivity.
Qed.

(** X1.  [newRequest] fails exactly when [http.NewRequest] refuses the
    method or the URL, with the error of [http.NewRequest]; a request is
    built exactly when the request line is accepted, and it has the method
    given ([GET] for an empty method). *)
Theorem newRequest_fails_with_request_line {E : Type} check (c : Client E)
    (method path : string) (body : option http.Reader) :
  (forall e, newRequest check c method path body = inr e
             <-> check method (RootURL c +:+ path) = Some e)
  /\ ((exists req, newRequest check c method path body = inl req)
      <-> check method (RootURL c +:+ path) = None)
  /\ (forall req, newRequest check c method path body = inl req ->
        http.Method req = if gostring.is_empty method then "GET"%string else method).
Proof.
  split; [|split].
  - intros e. unfold newRequest, http.NewRequest.
    destruct (check method (RootURL c +:+ path)) as [e'|]; split;
      intros H; try discriminate; congruence.
  - unfold newRequest, http.NewRequest.
    destruct (check method (RootURL c +:+ path)) as [e'|]; split.
    + intros [req H]. discriminate.
    + discriminate.
    + reflexivity.
    + intros _. eexists. reflexivity.
  - intros req H. apply newRequest_inl in H as (req0 & HN & _ & ->).
    destruct (setRequestAuthorization_Method c
                (http.Request_SetHeader
                   (http.Request_SetHeader req0 headerAppVersion (AppVersion c))
                   headerAPIVersion (Itoa Version))) as [-> _].
    unfold http.NewRequest in HN.
    destruct (check method (RootURL c +:+ path)); [discriminate|].
    now injection HN as <-.
Qed.

Lemma newRequest_fails_with_request_line_witness :
  http.Method (Scenario.built
                 (newRequest Scenario.accept Scenario.alice EmptyString "/x" None))
  = "GET"%string.
Proof.
  destruct (newRequest_fails_with_request_line Scenario.accept Scenario.alice
              EmptyString "/x" None) as (_ & _ & H).
  exact (H _ eq_refl).
Defined.

(** X2.  Every request built by [newRequest] carries the application
    version of the client and the API version 3, one value each, whatever
    the session state; a request built by [newJSONRequest] carries them
    too, with the content type [application/json]. *)
Theorem built_requests_carry_versions {E : Type} check (c : Client E)
    (method path : string) :
  (forall body req,
      newRequest check c method path body = inl req ->
      http.Header req !! "X-Pm-Appversion"%string = Some [AppVersion c]
      /\ http.Header req !! "X-Pm-Apiversion"%string = Some ["3"%string])
  /\ (forall (T : Type) (M : Marshaler T) (body : T) req,
        newJSONRequest check c method path body = inl req ->
        http.Header req !! "X-Pm-Appversion"%string = Some [AppVersion c]
        /\ http.Header req !! "X-Pm-Apiversion"%string = Some ["3"%string]
        /\ http.Header req !! "Content-Type"%string = Some ["application/json"%string]).
Proof.
  assert (Hnew : forall body req,
             newRequest check c method path body = inl req ->
             http.Header req !! "X-Pm-Appversion"%string = Some [AppVersion c]
             /\ http.Header req !! "X-Pm-Apiversion"%string = Some ["3"%string]).
  { intros body req H. apply newRequest_inl in H as (req0 & _ & H0 & ->).
    rewrite !setRequestAuthorization_other by discriminate.
    simpl. unfold http.Header_Set, headerAPIVersion, headerAppVersion. split.
    - rewrite lookup_insert_ne by discriminate. apply lookup_insert_eq.
    - apply lookup_insert_eq. }
  split; [exact Hnew|].
  intros T M body req H. apply newJSONRequest_inl in H as (b & req0 & _ & H0 & ->).
  destruct (Hnew _ _ H0) as [H1 H2]. simpl. unfold http.Header_Set.
  rewrite !lookup_insert_ne by discriminate. rewrite lookup_insert_eq. now repeat split.
Qed.

Lemma built_requests_carry_versions_witness :
  http.Header Scenario.getAnonymous !! "X-Pm-Appversion"%string = Some ["Other"%string]
  /\ http.Header Scenario.getAnonymous !! "X-Pm-Apiversion"%string = Some ["3"%string].
Proof.
  destruct (built_requests_carry_versions Scenario.accept Scenario.anonymous "GET" "/x")
    as [H _].
  exact (H None Scenario.getAnonymous eq_refl).
Defined.

(** X3.  Attaching authorization touches nothing but the three headers
    [X-Pm-Uid], [Cookie] and [Authorization]: the method, the URL, the
    body, the replay function and every other header of the request are
    as before. *)
Theorem setRequestAuthorization_frame {E : Type} (c : Client E) (req : http.Request) :
  http.Method (setRequestAuthorization c req) = http.Method req
  /\ http.URL (setRequestAuthorization c req) = http.URL req
  /\ http.Body (setRequestAuthorization c req) = http.Body req
  /\ http.GetBody (setRequestAuthorization c req) = http.GetBody req
  /\ forall key : string,
      key <> "X-Pm-Uid"%string -> key <> "Cookie"%string ->
      key <> "Authorization"%string ->
      http.Header (setRequestAuthorization c req) !! key = http.Header req !! key.
Proof.
  destruct (setRequestAuthorization_Method c req) as [H1 H2].
  split; [exact H1|]. split; [exact H2|].
  split; [apply setRequestAuthorization_Body|].
  split; [apply setRequestAuthorization_GetBody|].
  intros key. apply setRequestAuthorization_other.
Qed.

Lemma setRequestAuthorization_frame_witness :
  http.Header (setRequestAuthorization Scenario.alice Scenario.postJSON)
    !! "Content-Type"%string
  = http.Header Scenario.postJSON !! "Content-Type"%string.
Proof.
  destruct (setRequestAuthorization_frame Scenario.alice Scenario.postJSON)
    as (_ & _ & _ & _ & H).
  apply H; discriminate.
Defined.

(** X4.  A request built by [newRequest] has an authorization header
    exactly when the client has both a session identifier and an access
    token. *)
Theorem bearer_iff_session_and_token {E : Type} check (c : Client E)
    (method path : string) (body : option http.Reader) (req : http.Request) :
  newRequest check c method path body = inl req ->
  (hasAuth req = true <-> uid c <> EmptyString /\ accessToken c <> EmptyString).
Proof.
  intros H. apply newRequest_inl in H as (req0 & _ & H0 & ->).
  set (base := http.Request_SetHeader
                 (http.Request_SetHeader req0 headerAppVersion (AppVersion c))
                 headerAPIVersion (Itoa Version)).
  assert (Hbase : http.Header base !! "Authorization"%string = None).
  { unfold base. simpl. rewrite H0. unfold http.Header_Set, headerAPIVersion,
      headerAppVersion. rewrite !lookup_insert_ne by discriminate. apply lookup_empty. }
  clearbody base.
  assert (Hset : forall (r : http.Request) (k v : string),
             k <> "Authorization"%string ->
             http.Header (http.Request_SetHeader r k v) !! "Authorization"%string
             = http.Header r !! "Authorization"%string).
  { intros r k v Hk. simpl. now apply Header_lookup_Set_ne. }
  rewrite hasAuth_is_Some. split.
  - intros Hs. destruct (gostring.is_empty (uid c)) eqn:Hu.
    + apply is_empty_true in Hu.
      rewrite (setRequestAuthorization_no_session c base Hu), Hbase in Hs.
      now destruct Hs.
    + apply is_empty_false in Hu. split; [exact Hu|].
      destruct (gostring.is_empty (accessToken c)) eqn:Ha; [|now apply is_empty_false].
      exfalso. unfold setRequestAuthorization in Hs.
      apply is_empty_false in Hu. rewrite Hu, Ha in Hs. cbn [negb] in Hs.
      destruct (negb (gostring.is_empty (authToken c))).
      * rewrite Header_AddCookie in Hs by discriminate.
        rewrite Hset, Hbase in Hs by discriminate. now destruct Hs.
      * rewrite Hset, Hbase in Hs by discriminate. now destruct Hs.
  - intros [Hu Ha]. rewrite (setRequestAuthorization_Bearer c base Hu Ha). eauto.
Qed.

Lemma bearer_iff_session_and_token_witness :
  hasAuth Scenario.getX = true <->
  uid Scenario.alice <> EmptyString /\ accessToken Scenario.alice <> EmptyString.
Proof.
  exact (bearer_iff_session_and_token Scenario.accept Scenario.alice "GET" "/x" None
           Scenario.getX eq_refl).
Defined.

(** X5.  A request built by a client without a session identifier or
    without an access token is never retried: whatever hook is configured
    and whatever the client holds when the request is sent, the response
    to it comes back at once, after one send and no hook call, also when
    it is unauthorized. *)
Theorem request_without_token_not_retried {E W : Type} check (c0 : Client E)
    (method path : string) (body : option http.Reader) (req : http.Request)
    (D : Transport W) (k : Collaborators E W) (c : Client E) (w w1 : W)
    (j : list (Event E)) (resp : http.Response) (fuel : nat) :
  newRequest check c0 method path body = inl req ->
  uid c0 = EmptyString \/ accessToken c0 = EmptyString ->
  httpClient D k req w = (Ok resp, w1) ->
  do (journaled D) (S fuel) (recording k) c req (w, j)
  = Some (Returned (Ok resp) c req (w1, j ++ [Sent req (Ok resp)])).
Proof.
  intros Hreq Hc H.
  assert (Ha : hasAuth req = false).
  { destruct (hasAuth req) eqn:Ha; [|reflexivity].
    apply (bearer_iff_session_and_token _ _ _ _ _ _ Hreq) in Ha as [Hu Ht].
    destruct Hc; contradiction. }
  cbn [do]. rewrite (attempt_recorded_no_retry D k c req w j resp w1 H); [reflexivity|].
  apply guard_fails. now left.
Qed.

Lemma request_without_token_not_retried_witness :
  do (journaled Scenario.offline) 1
     (recording (Scenario.withHook (refreshing Scenario.newToken)))
     Scenario.alice Scenario.getAnonymous ([Ok Scenario.unauthorized], [])
  = Some (Returned (Ok Scenario.unauthorized) Scenario.alice Scenario.getAnonymous
            ([], [] ++ [Sent Scenario.getAnonymous (Ok Scenario.unauthorized)])).
Proof.
  apply (request_without_token_not_retried Scenario.accept Scenario.anonymous
           "GET" "/x" None Scenario.getAnonymous Scenario.offline
           (Scenario.withHook (refreshing Scenario.newToken)) Scenario.alice
           [Ok Scenario.unauthorized] [] [] Scenario.unauthorized 0 eq_refl
           (or_introl eq_refl) eq_refl).
Defined.

(** X6.  When the body cannot be serialized, [newJSONRequest] returns the
    error of the encoder and builds no request, whatever the method and
    the URL; when the body can be serialized and the request line is
    refused, it returns the error of [http.NewRequest]. *)
Theorem newJSONRequest_errors {E T : Type} `{Marshaler T} check (c : Client E)
    (method path : string) (body : T) :
  (forall e, Marshal body = inr e -> newJSONRequest check c method path body = inr e)
  /\ (forall b e, Marshal body = inl b ->
        check method (RootURL c +:+ path) = Some e ->
        newJSONRequest check c method path body = inr e).
Proof.
  split.
  - intros e He. unfold newJSONRequest, Encode. now rewrite He.
  - intros b e Hb He. unfold newJSONRequest, Encode. rewrite Hb.
    unfold newRequest, http.NewRequest. now rewrite He.
Qed.

Lemma newJSONRequest_errors_witness :
  newJSONRequest (H := Scenario.bool_Marshaler)
    (fun _ _ => Some (ErrExternal "invalid method")) Scenario.alice "G T" "/x" true
  = inr (ErrExternal "invalid method").
Proof.
  destruct (newJSONRequest_errors (H := Scenario.bool_Marshaler)
              (fun _ _ => Some (ErrExternal "invalid method")) Scenario.alice
              "G T" "/x" true) as [_ H2].
  apply (H2 (Scenario.bytes "true")); reflexivity.
Defined.

(** X7.  A request built by [newJSONRequest] can always be retried: its
    body is the encoding of the value followed by a newline, and its
    replay function is there and does not fail. *)
Theorem json_request_is_replayable {E T : Type} `{Marshaler T} check (c : Client E)
    (method path : string) (body : T) (req : http.Request) :
  newJSONRequest check c method path body = inl req ->
  canRetry req = true /\ replayable req
  /\ exists b, Marshal body = inl b /\ http.Body req = Some (http.NopCloser (b ++ [x0a])).
Proof.
  intros Hreq. apply newJSONRequest_inl in Hreq as (b & req0 & Hb & Hreq0 & ->).
  assert (Hrep : replayable
                   (http.set_GetBody
                      (http.Request_SetHeader req0 "Content-Type" "application/json")
                      (Some (fun _ => inl (http.NopCloser b))))).
  { right. eexists _, _. split; reflexivity. }
  split; [now apply replayable_canRetry|]. split; [exact Hrep|].
  unfold Encode in Hb. destruct (Marshal body) as [b0|e]; [|discriminate].
  injection Hb as <-. exists b0. split; [reflexivity|].
  simpl. now rewrite (newRequest_Body _ _ _ _ _ _ Hreq0).
Qed.

Lemma json_request_is_replayable_witness :
  canRetry Scenario.postJSON = true /\ replayable Scenario.postJSON.
Proof.
  destruct (json_request_is_replayable (H := Scenario.bool_Marshaler) Scenario.accept
              Scenario.alice "POST" "/y" true Scenario.postJSON eq_refl)
    as (H1 & H2 & _).
  now split.
Defined.

(** X8.  A request built by [newRequest] from a stream that the HTTP
    library cannot replay is never retried: an unauthorized response to it
    comes back at once, after one send and no hook call, even when it
    carries an authorization header and a hook is configured. *)
Theorem stream_body_not_retried {E W : Type} check (c0 : Client E)
    (method path : string) (b : list byte) (req : http.Request)
    (D : Transport W) (k : Collaborators E W) (c : Client E) (w w1 : W)
    (j : list (Event E)) (resp : http.Response) (fuel : nat) :
  newRequest check c0 method path (Some (http.StreamReader b)) = inl req ->
  httpClient D k req w = (Ok resp, w1) ->
  canRetry req = false
  /\ do (journaled D) (S fuel) (recording k) c req (w, j)
     = Some (Returned (Ok resp) c req (w1, j ++ [Sent req (Ok resp)])).
Proof.
  intros Hreq H.
  assert (Hc : (exists rc, http.Body req = Some rc) /\ http.GetBody req = None).
  { split.
    - rewrite (newRequest_Body _ _ _ _ _ _ Hreq). eauto.
    - apply newRequest_inl in Hreq as (req0 & HN & _ & ->).
      rewrite setRequestAuthorization_GetBody. simpl.
      unfold http.NewRequest in HN. destruct (check _ _); [discriminate|].
      now injection HN as <-. }
  split; [now apply canRetry_false|].
  cbn [do]. rewrite (attempt_recorded_no_retry D k c req w j resp w1 H); [reflexivity|].
  apply guard_fails. right. now right.
Qed.

Lemma stream_body_not_retried_witness :
  canRetry Scenario.postStream = false
  /\ do (journaled Scenario.offline) 1
        (recording (Scenario.withHook (refreshing Scenario.newToken)))
        Scenario.alice Scenario.postStream ([Ok Scenario.unauthorized], [])
     = Some (Returned (Ok Scenario.unauthorized) Scenario.alice Scenario.postStream
               ([], [] ++ [Sent Scenario.postStream (Ok Scenario.unauthorized)])).
Proof.
  apply (stream_body_not_retried Scenario.accept Scenario.alice "POST" "/y"
           (Scenario.bytes "data") Scenario.postStream Scenario.offline
           (Scenario.withHook (refreshing Scenario.newToken)) Scenario.alice
           [Ok Scenario.unauthorized] [] [] Scenario.unauthorized 0 eq_refl eq_refl).
Defined.

(** ** The transport executor *)

(** X9.  An error of the transport ends the call at once: the error, and
    the response beside it if there is one, are returned as the transport
    gave them, the client and the request are as before, and the journal
    holds the one send and no hook call. *)
Theorem transport_error_is_final {E W : Type} (D : Transport W)
    (k : Collaborators E W) (c : Client E) (req : http.Request) (w w1 : W)
    (j : list (Event E)) (r : option http.Response) (e : error) (fuel : nat) :
  httpClient D k req w = (Fail r e, w1) ->
  do D (S fuel) k c req w = Some (Returned (Fail r e) c req w1)
  /\ do (journaled D) (S fuel) (recording k) c req (w, j)
     = Some (Returned (Fail r e) c req (w1, j ++ [Sent req (Fail r e)])).
Proof.
  intros H. cbn [do].
  rewrite (attempt_transport_error D k c req w r e w1 H).
  rewrite (attempt_recorded_error D k c req w j r e w1 H). now split.
Qed.

Lemma transport_error_is_final_witness :
  do Scenario.offline 1 (mkCollaborators None (Some (refreshing Scenario.newToken)))
     Scenario.alice Scenario.getX [Ok Scenario.unauthorized]
  = Some (Returned (Fail None (ErrExternal "no network")) Scenario.alice Scenario.getX
            [Ok Scenario.unauthorized]).
Proof.
  apply (transport_error_is_final Scenario.offline
           (mkCollaborators None (Some (refreshing Scenario.newToken)))
           Scenario.alice Scenario.getX [Ok Scenario.unauthorized]
           [Ok Scenario.unauthorized] [] None (ErrExternal "no network") 0 eq_refl).
Defined.

(** X10.  A response whose status is not 401 is returned as it is, after
    one send and no hook call, also when the request carries an
    authorization header, can be replayed, and a hook is configured. *)
Theorem other_status_is_returned {E W : Type} (D : Transport W)
    (k : Collaborators E W) (c : Client E) (req : http.Request) (w w1 : W)
    (j : list (Event E)) (resp : http.Response) (fuel : nat) :
  httpClient D k req w = (Ok resp, w1) ->
  http.StatusCode resp <> http.StatusUnauthorized ->
  do D (S fuel) k c req w = Some (Returned (Ok resp) c req w1)
  /\ do (journaled D) (S fuel) (recording k) c req (w, j)
     = Some (Returned (Ok resp) c req (w1, j ++ [Sent req (Ok resp)])).
Proof.
  intros H Hs.
  assert (G : retryGuard (hookConfigured k) resp req = false).
  { unfold retryGuard. apply Z.eqb_neq in Hs. now rewrite Hs. }
  cbn [do]. rewrite (attempt_no_retry D k c req w resp w1 H G).
  rewrite (attempt_recorded_no_retry D k c req w j resp w1 H G). now split.
Qed.

Lemma other_status_is_returned_witness :
  do Scenario.offline 1 (Scenario.withHook (refreshing Scenario.newToken))
     Scenario.alice Scenario.getX [Ok Scenario.success]
  = Some (Returned (Ok Scenario.success) Scenario.alice Scenario.getX []).
Proof.
  apply (other_status_is_returned Scenario.offline
           (Scenario.withHook (refreshing Scenario.newToken)) Scenario.alice
           Scenario.getX [Ok Scenario.success] [] [] Scenario.success 0 eq_refl).
  discriminate.
Defined.

(** X11.  A client without an HTTP client of its own sends through the
    default client: it behaves as a client whose HTTP client is the
    default one. *)
Theorem nil_HTTPClient_uses_default {E W : Type} (D D' : Transport W)
    (h : option (Hook E W)) (fuel : nat) (c : Client E) (req : http.Request) (w : W) :
  do D fuel (mkCollaborators None h) c req w
  = do D' fuel (mkCollaborators (Some D) h) c req w.
Proof.
  revert c req w. induction fuel as [|fuel IH]; intros c req w; [reflexivity|].
  cbn [do].
  change (attempt D (mkCollaborators None h) c req w)
    with (attempt D' (mkCollaborators (Some D) h) c req w).
  destruct (attempt D' _ c req w); [reflexivity|apply IH|reflexivity].
Qed.

(** X12.  When the hook has succeeded and the replay function of the
    request returns an error, the call ends with that error beside the
    closed response: authorization was attached again, the request is not
    sent again, and the client is the one the hook left. *)
Theorem replay_error_is_final {E W : Type} (D : Transport W)
    (k : Collaborators E W) (c c2 : Client E) (req : http.Request) (w w1 w2 : W)
    (j : list (Event E)) (resp : http.Response) (h : Hook E W)
    (b : http.ReadCloser) (g : unit -> http.ReadCloser + error) (e : error)
    (fuel : nat) :
  httpClient D k req w = (Ok resp, w1) ->
  http.StatusCode resp = http.StatusUnauthorized ->
  hasAuth req = true -> ReAuth k = Some h ->
  h (set_accessToken c EmptyString) w1 = (None, c2, w2) ->
  http.Body req = Some b -> http.GetBody req = Some g -> g tt = inr e ->
  do D (S fuel) k c req w
  = Some (Returned (Fail (Some (http.CloseBody resp)) e) c2
            (setRequestAuthorization c2 req) w2)
  /\ do (journaled D) (S fuel) (recording k) c req (w, j)
     = Some (Returned (Fail (Some (http.CloseBody resp)) e) c2
               (setRequestAuthorization c2 req)
               (w2, j ++ [Sent req (Ok resp);
                          Refreshed (set_accessToken c EmptyString) c2 None])).
Proof.
  intros H Hs Ha Hk Hh HB HG Hg.
  assert (Hc : canRetry req = true).
  { unfold canRetry. rewrite HG. apply orb_true_r. }
  pose proof (guard_holds k resp req h Hs Ha Hk Hc) as G.
  assert (Hre : forall (X : Type) (x : X),
             resend (http.CloseBody resp) c2 req x
             = Return (Fail (Some (http.CloseBody resp)) e) c2
                 (setRequestAuthorization c2 req) x).
  { intros X x. unfold resend.
    rewrite setRequestAuthorization_Body, setRequestAuthorization_GetBody, HB, HG, Hg.
    reflexivity. }
  cbn [do].
  rewrite (attempt_retry D k c req w resp w1 h None c2 w2 H G Hk Hh).
  rewrite (attempt_recorded_retry D k c req w j resp w1 h None c2 w2 H G Hk Hh).
  cbv zeta. rewrite !Hre. now split.
Qed.

Lemma replay_error_is_final_witness :
  do Scenario.offline 1 (Scenario.withHook (refreshing Scenario.newToken))
     Scenario.alice Scenario.brokenReplay [Ok Scenario.unauthorized; Ok Scenario.success]
  = Some (Returned
            (Fail (Some (http.CloseBody Scenario.unauthorized))
               (ErrExternal "cannot rewind"))
            (Scenario.newToken (set_accessToken Scenario.alice EmptyString))
            (setRequestAuthorization
               (Scenario.newToken (set_accessToken Scenario.alice EmptyString))
               Scenario.brokenReplay)
            [Ok Scenario.success]).
Proof.
  destruct (replay_error_is_final Scenario.offline
              (Scenario.withHook (refreshing Scenario.newToken)) Scenario.alice
              (Scenario.newToken (set_accessToken Scenario.alice EmptyString))
              Scenario.brokenReplay [Ok Scenario.unauthorized; Ok Scenario.success]
              [Ok Scenario.success] [Ok Scenario.success] []
              Scenario.unauthorized (refreshing Scenario.newToken)
              (http.NopCloser (Scenario.bytes "data"))
              (fun _ => inr (ErrExternal "cannot rewind"))
              (ErrExternal "cannot rewind") 0
              eq_refl eq_refl eq_refl eq_refl eq_refl eq_refl eq_refl eq_refl)
    as [H _].
  exact H.
Defined.

(** X13.  [do] never calls a [nil] replay function: the test [canRetry]
    made before the hook runs still holds when the body is taken again,
    because neither the transport nor the hook nor the re-attachment of
    authorization changes the body or the replay function of the request.
    So no call of [do], and no call of [doJSON] or [doJSONWithCookies],
    ends in that panic. *)
Theorem never_calls_nil_replay {E W : Type} (D : Transport W) (k : Collaborators E W)
    (fuel : nat) (c : Client E) (req : http.Request) (w : W) (d : option Dest) :
  do D fuel k c req w <> Some Panicked
  /\ doJSON D fuel k c req d w <> Some None
  /\ doJSONWithCookies D fuel k c req d w <> Some None.
Proof.
  split; [apply do_never_panics|].
  pose proof (do_never_panics D k fuel c
                (http.Request_SetHeader req "Accept" "application/json") w) as Hn.
  split.
  - unfold doJSON.
    destruct (do D fuel k c _ w) as [[[resp|r e] c' req' w'|]|]; try discriminate.
    + now destruct (decodeResponse resp _).
    + congruence.
  - unfold doJSONWithCookies.
    destruct (do D fuel k c _ w) as [[[resp|r e] c' req' w'|]|]; try discriminate.
    + destruct (Decode _ _) as [d' [e|]]; [discriminate|].
      destruct (dest_maybeError d') as [M|]; [|discriminate].
      now destruct (Err (pointee d')).
    + congruence.
Qed.

(** X14.  The retry has no bound: when the server answers every request
    with an unauthorized response and the hook succeeds every time, a
    request with an authorization header and a replayable body is sent
    again and again, and the call does not return, whatever the number of
    turns allowed. *)
Theorem rejected_forever_never_returns {E W : Type} (D : Transport W)
    (k : Collaborators E W) (h : Hook E W) :
  (forall req w, exists resp w1,
      httpClient D k req w = (Ok resp, w1)
      /\ http.StatusCode resp = http.StatusUnauthorized) ->
  ReAuth k = Some h ->
  (forall c w, exists c2 w2, h c w = (None, c2, w2)) ->
  forall (fuel : nat) (c : Client E) (req : http.Request) (w : W),
    hasAuth req = true -> replayable req ->
    do D fuel k c req w = None.
Proof.
  intros Hserver Hk Hhook fuel.
  induction fuel as [|fuel IH]; intros c req w Ha Hr; [reflexivity|].
  destruct (Hserver req w) as (resp & w1 & H & Hs).
  destruct (Hhook (set_accessToken c EmptyString) w1) as (c2 & w2 & Hh).
  pose proof (guard_holds k resp req h Hs Ha Hk (replayable_canRetry req Hr)) as G.
  destruct (resend_replayable (http.CloseBody resp) c2 req w2 Hr)
    as (req2 & Hre & Hh2 & Hr2).
  cbn [do]. rewrite (attempt_retry D k c req w resp w1 h None c2 w2 H G Hk Hh), Hre.
  apply IH; [|exact Hr2].
  unfold hasAuth. rewrite Hh2. now apply (setRequestAuthorization_hasAuth c2).
Qed.

Lemma rejected_forever_never_returns_witness :
  do (fun _ n => (Fail None (ErrExternal "no network"), n)) 50
     (mkCollaborators (Some Scenario.rejecting) (Some (refreshing Scenario.newToken)))
     Scenario.alice Scenario.getX 0%nat
  = None.
Proof.
  apply (rejected_forever_never_returns
           (fun _ n => (Fail None (ErrExternal "no network"), n))
           (mkCollaborators (Some Scenario.rejecting)
              (Some (refreshing Scenario.newToken)))
           (refreshing Scenario.newToken)).
  - intros req w. exists Scenario.unauthorized, (S w). split; reflexivity.
  - reflexivity.
  - intros c w. eexists _, _. reflexivity.
  - reflexivity.
  - left. reflexivity.
Defined.

Lemma setRequestAuthorization_no_token {E : Type} (c : Client E) (req : http.Request) :
  accessToken c = EmptyString ->
  http.Header (setRequestAuthorization c req) !! "Authorization"%string
  = http.Header req !! "Authorization"%string.
Proof.
  intros Ha. unfold setRequestAuthorization. rewrite Ha. cbn [gostring.is_empty negb].
  destruct (negb (gostring.is_empty (uid c))); [|reflexivity].
  destruct (negb (gostring.is_empty (authToken c))).
  - rewrite Header_AddCookie by discriminate. simpl.
    now rewrite Header_lookup_Set_ne by discriminate.
  - simpl. now rewrite Header_lookup_Set_ne by discriminate.
Qed.

(** X15.  When the hook succeeds and leaves the access token empty, the
    request is sent again all the same, and it carries the authorization
    header of the attempt that was refused: the header is overwritten only
    when there is a token to write. *)
Theorem stale_authorization_is_resent {E W : Type} (D : Transport W)
    (k : Collaborators E W) (c c2 : Client E) (req : http.Request) (w w1 w2 : W)
    (resp : http.Response) (h : Hook E W) :
  httpClient D k req w = (Ok resp, w1) ->
  http.StatusCode resp = http.StatusUnauthorized ->
  hasAuth req = true -> replayable req -> ReAuth k = Some h ->
  h (set_accessToken c EmptyString) w1 = (None, c2, w2) ->
  accessToken c2 = EmptyString ->
  exists req2,
    attempt D k c req w = Again c2 req2 w2
    /\ http.Header req2 !! "Authorization"%string
       = http.Header req !! "Authorization"%string.
Proof.
  intros H Hs Ha Hr Hk Hh Htok.
  pose proof (guard_holds k resp req h Hs Ha Hk (replayable_canRetry req Hr)) as G.
  destruct (resend_replayable (http.CloseBody resp) c2 req w2 Hr) as (req2 & Hre & Hh2 & _).
  exists req2. split.
  - rewrite (attempt_retry D k c req w resp w1 h None c2 w2 H G Hk Hh). exact Hre.
  - rewrite Hh2. now apply setRequestAuthorization_no_token.
Qed.

Lemma stale_authorization_is_resent_witness :
  exists req2,
    attempt Scenario.offline (Scenario.withHook (refreshing (fun c => c)))
      Scenario.alice Scenario.getX [Ok Scenario.unauthorized]
    = Again (set_accessToken Scenario.alice EmptyString) req2 []
    /\ http.Header req2 !! "Authorization"%string = Some ["Bearer t1"%string].
Proof.
  destruct (stale_authorization_is_resent Scenario.offline
              (Scenario.withHook (refreshing (fun c => c))) Scenario.alice
              (set_accessToken Scenario.alice EmptyString) Scenario.getX
              [Ok Scenario.unauthorized] [] [] Scenario.unauthorized
              (refreshing (fun c => c)) eq_refl eq_refl eq_refl
              (or_introl eq_refl) eq_refl eq_refl eq_refl) as (req2 & H1 & H2).
  exists req2. split; [exact H1|]. rewrite H2. reflexivity.
Defined.

(** X16.  A JSON request that is sent again is sent with its whole body,
    whatever is left of the stream it was first sent with (nothing, once
    the transport has read it to the end and closed it): the body of the
    resent request is a fresh, unread stream of the bytes that were
    serialized when the request was built. *)
Theorem json_body_is_resent_whole {E W T : Type} `{Marshaler T} check (c0 : Client E)
    (method path : string) (body : T) (req0 req : http.Request)
    (rc : http.ReadCloser)
    (D : Transport W) (k : Collaborators E W) (c c2 : Client E) (w w1 w2 : W)
    (resp : http.Response) (h : Hook E W) :
  newJSONRequest check c0 method path body = inl req0 ->
  http.Body req = Some rc -> http.GetBody req = http.GetBody req0 ->
  httpClient D k req w = (Ok resp, w1) ->
  http.StatusCode resp = http.StatusUnauthorized ->
  hasAuth req = true -> ReAuth k = Some h ->
  h (set_accessToken c EmptyString) w1 = (None, c2, w2) ->
  exists b req2,
    Encode body = inl b
    /\ attempt D k c req w = Again c2 req2 w2
    /\ http.Body req2 = Some (http.NopCloser b)
    /\ http.unread (http.NopCloser b) = b
    /\ http.closed (http.NopCloser b) = false.
Proof.
  intros Hreq0 HB HG Ht Hs Ha Hk Hh.
  apply newJSONRequest_inl in Hreq0 as (b & req1 & Hb & Hreq1 & ->).
  simpl in HG.
  assert (Hc : canRetry req = true).
  { unfold canRetry. rewrite HG. apply orb_true_r. }
  pose proof (guard_holds k resp req h Hs Ha Hk Hc) as G.
  exists b. eexists. split; [exact Hb|]. split.
  - rewrite (attempt_retry D k c req w resp w1 h None c2 w2 Ht G Hk Hh).
    unfold resend.
    rewrite setRequestAuthorization_Body, setRequestAuthorization_GetBody, HB, HG.
    reflexivity.
  - repeat split; reflexivity.
Qed.

Lemma json_body_is_resent_whole_witness :
  http.Body Scenario.postJSONSent = Some {| http.unread := []; http.closed := true |}
  /\ exists b req2,
      b = Scenario.bytes "true" ++ [x0a]
      /\ attempt Scenario.offline (Scenario.withHook (refreshing Scenario.newToken))
           Scenario.alice Scenario.postJSONSent [Ok Scenario.unauthorized]
         = Again (Scenario.newToken (set_accessToken Scenario.alice EmptyString)) req2 []
      /\ http.Body req2 = Some (http.NopCloser b).
Proof.
  split; [reflexivity|].
  destruct (json_body_is_resent_whole (H := Scenario.bool_Marshaler) Scenario.accept
              Scenario.alice "POST" "/y" true Scenario.postJSON Scenario.postJSONSent
              {| http.unread := []; http.closed := true |}
              Scenario.offline (Scenario.withHook (refreshing Scenario.newToken))
              Scenario.alice
              (Scenario.newToken (set_accessToken Scenario.alice EmptyString))
              [Ok Scenario.unauthorized] [] [] Scenario.unauthorized
              (refreshing Scenario.newToken)
              eq_refl eq_refl eq_refl eq_refl eq_refl eq_refl eq_refl eq_refl)
    as (b & req2 & Hb & H1 & H2 & _).
  exists b, req2. split; [now injection Hb as <-|]. now split.
Defined.

Lemma sentRequests_app {E : Type} (a b : list (Event E)) :
  sentRequests (a ++ b) = sentRequests a ++ sentRequests b.
Proof. unfold sentRequests. apply List.flat_map_app. Qed.

Lemma resend_sameUnder {E W : Type} (key : string) (req0 : http.Request) resp
    (c : Client E) req (w : W) :
  key <> "X-Pm-Uid"%string -> key <> "Cookie"%string -> key <> "Authorization"%string ->
  sameUnder key req0 req ->
  match resend resp c req w with
  | Return _ _ req' _ | Again _ req' _ => sameUnder key req0 req'
  | NilCall => True
  end.
Proof.
  intros H1 H2 H3 (Hm & Hu & Hk).
  assert (Hs : sameUnder key req0 (setRequestAuthorization c req)).
  { destruct (setRequestAuthorization_Method c req) as [Hm' Hu'].
    unfold sameUnder. rewrite Hm', Hu', setRequestAuthorization_other by assumption.
    now repeat split. }
  unfold resend. destruct (http.Body _); [|exact Hs].
  destruct (http.GetBody _) as [g|]; [|exact I].
  destruct (g tt); exact Hs.
Qed.

(** Every request sent in a recorded call, and the request the call
    leaves, is addressed as the first one and has its value under any
    header that is none of the three authorization headers. *)
Lemma do_recorded_sameUnder {E W : Type} (D : Transport W) (k : Collaborators E W)
    (key : string) (req0 : http.Request) :
  key <> "X-Pm-Uid"%string -> key <> "Cookie"%string -> key <> "Authorization"%string ->
  forall fuel (c : Client E) req (w : W) (j : list (Event E)) res c' req' w' j',
    sameUnder key req0 req ->
    do (journaled D) fuel (recording k) c req (w, j)
    = Some (Returned res c' req' (w', j')) ->
    exists js, j' = j ++ js
               /\ Forall (sameUnder key req0) (sentRequests js)
               /\ sentRequests js <> []
               /\ sameUnder key req0 req'.
Proof.
  intros H1 H2 H3 fuel.
  induction fuel as [|fuel IH]; intros c req w j res c' req' w' j' Hsame; [discriminate|].
  cbn [do].
  destruct (httpClient D k req w) as [[resp|r e] w1] eqn:H.
  - destruct (retryGuard (hookConfigured k) resp req) eqn:G.
    + destruct (retryGuard_hook _ _ _ G) as [h Hk].
      destruct (h (set_accessToken c EmptyString) w1) as [[e c2] w2] eqn:Hh.
      rewrite (attempt_recorded_retry D k c req w j resp w1 h e c2 w2 H G Hk Hh).
      cbv zeta. destruct e as [err|].
      * intros [= <- <- <- <- <-]. eexists. split; [reflexivity|].
        simpl. split; [constructor; [exact Hsame|constructor]|]. split; [discriminate|exact Hsame].
      * set (j1 := j ++ _).
        pose proof (resend_sameUnder key req0 (http.CloseBody resp) c2 req (w2, j1)
                      H1 H2 H3 Hsame) as Hre.
        destruct (resend (http.CloseBody resp) c2 req (w2, j1))
          as [r1 c1 q1 [x1 y1]|c1 q1 [x1 y1]|] eqn:Hres.
        -- pose proof (resend_world (http.CloseBody resp) c2 req (w2, j1) (w2, j1)) as Hw.
           rewrite Hres in Hw. destruct Hw as (_ & _ & _ & _ & Hx & _).
           injection Hx as -> ->.
           intros [= <- <- <- <- <-]. eexists. split; [reflexivity|].
           simpl. split; [constructor; [exact Hsame|constructor]|]. split; [discriminate|exact Hre].
        -- pose proof (resend_world (http.CloseBody resp) c2 req (w2, j1) (w2, j1)) as Hw.
           rewrite Hres in Hw. destruct Hw as (_ & _ & _ & Hx & _).
           injection Hx as -> ->.
           intros Hdo. apply (IH _ _ _ _ _ _ _ _ _ Hre) in Hdo
             as (js & -> & Hall & _ & Hreq').
           exists ([Sent req (Ok resp);
                    Refreshed (set_accessToken c EmptyString) c2 None] ++ js).
           unfold j1. rewrite <- app_assoc. split; [reflexivity|].
           split; [|split; [simpl; discriminate|exact Hreq']].
           rewrite sentRequests_app. apply Forall_app. split; [|exact Hall].
           simpl. constructor; [exact Hsame|constructor].
        -- discriminate.
    + rewrite (attempt_recorded_no_retry D k c req w j resp w1 H G).
      intros [= <- <- <- <- <-]. eexists. split; [reflexivity|].
      simpl. split; [constructor; [exact Hsame|constructor]|]. split; [discriminate|exact Hsame].
  - rewrite (attempt_recorded_error D k c req w j r e w1 H).
    intros [= <- <- <- <- <-]. eexists. split; [reflexivity|].
    simpl. split; [constructor; [exact Hsame|constructor]|]. split; [discriminate|exact Hsame].
Qed.

(** X17.  Whatever happens in a call, every request it sends goes to the
    URL of the first one with the method of the first one, and carries
    under each header other than [X-Pm-Uid], [Cookie] and [Authorization]
    the value that the first one carried; at least one request is sent. *)
Theorem resends_keep_request_line {E W : Type} (D : Transport W)
    (k : Collaborators E W) (key : string) (fuel : nat) (c c' : Client E)
    (req req' : http.Request) (w w' : W) (res : Result) (j : list (Event E)) :
  key <> "X-Pm-Uid"%string -> key <> "Cookie"%string -> key <> "Authorization"%string ->
  do (journaled D) fuel (recording k) c req (w, []) = Some (Returned res c' req' (w', j)) ->
  Forall (sameUnder key req) (sentRequests j)
  /\ sentRequests j <> []
  /\ sameUnder key req req'.
Proof.
  intros H1 H2 H3 Hdo.
  assert (Hrefl : sameUnder key req req) by (now repeat split).
  destruct (do_recorded_sameUnder D k key req H1 H2 H3 fuel c req w [] res c' req' w' j
              Hrefl Hdo) as (js & -> & Hall & Hne & Hreq').
  split; [exact Hall|]. split; [exact Hne|exact Hreq'].
Qed.

Lemma resends_keep_request_line_witness :
  let c2 := Scenario.newToken (set_accessToken Scenario.alice EmptyString) in
  let j := [Sent Scenario.getX (Ok Scenario.unauthorized);
            Refreshed (set_accessToken Scenario.alice EmptyString) c2 None;
            Sent (setRequestAuthorization c2 Scenario.getX) (Ok Scenario.success)] in
  Forall (sameUnder "X-Pm-Appversion" Scenario.getX) (sentRequests j).
Proof.
  intros c2 j.
  assert (H1 : "X-Pm-Appversion"%string <> "X-Pm-Uid"%string) by discriminate.
  assert (H2 : "X-Pm-Appversion"%string <> "Cookie"%string) by discriminate.
  assert (H3 : "X-Pm-Appversion"%string <> "Authorization"%string) by discriminate.
  destruct (resends_keep_request_line Scenario.offline
              (Scenario.withHook (refreshing Scenario.newToken)) "X-Pm-Appversion" 2
              Scenario.alice c2 Scenario.getX (setRequestAuthorization c2 Scenario.getX)
              [Ok Scenario.unauthorized; Ok Scenario.success] []
              (Ok Scenario.success) j H1 H2 H3 eq_refl) as [H _].
  exact H.
Defined.

(** X18.  Every request that [doJSON] sends, the first one and each one
    sent again after a re-authentication, carries the header
    [Accept: application/json]. *)
Theorem doJSON_sends_accept {E W : Type} (D : Transport W) (k : Collaborators E W)
    (fuel : nat) (c : Client E) (req : http.Request) (d : option Dest) (w : W)
    (r : Decoded E (W * list (Event E))) :
  doJSON (journaled D) fuel (recording k) c req d (w, []) = Some (Some r) ->
  Forall (fun q => http.Header q !! "Accept"%string = Some ["application/json"%string])
    (sentRequests (snd (world r)))
  /\ sentRequests (snd (world r)) <> [].
Proof.
  unfold doJSON.
  set (req1 := http.Request_SetHeader req "Accept" "application/json").
  assert (Hacc : http.Header req1 !! "Accept"%string = Some ["application/json"%string]).
  { unfold req1. simpl. unfold http.Header_Set. apply lookup_insert_eq. }
  assert (Hrefl : sameUnder "Accept" req1 req1) by (now repeat split).
  assert (Hgen : forall res c' req' w' j,
             do (journaled D) fuel (recording k) c req1 (w, []) =
             Some (Returned res c' req' (w', j)) ->
             Forall (fun q => http.Header q !! "Accept"%string
                              = Some ["application/json"%string]) (sentRequests j)
             /\ sentRequests j <> []).
  { intros res c' req' w' j Hdo.
    destruct (do_recorded_sameUnder D k "Accept" req1 ltac:(discriminate)
                ltac:(discriminate) ltac:(discriminate) fuel c req1 w [] res c' req' w' j
                Hrefl Hdo) as (js & -> & Hall & Hne & _).
    split; [|exact Hne].
    eapply Forall_impl; [exact Hall|]. intros q (_ & _ & Hq). now rewrite Hq. }
  destruct (do (journaled D) fuel (recording k) c req1 (w, []))
    as [[[resp|r0 e] c' req' [w' j]|]|]; try discriminate.
  - destruct (decodeResponse resp _) as [d' e]. intros [= <-]. simpl.
    now apply (Hgen (Ok resp) c' req' w' j).
  - intros [= <-]. simpl. now apply (Hgen (Fail r0 e) c' req' w' j).
Qed.

Lemma doJSON_sends_accept_witness :
  match doJSON (journaled Scenario.offline) 2
          (recording (Scenario.withHook (refreshing Scenario.newToken)))
          Scenario.alice Scenario.getX None
          ([Ok Scenario.unauthorized; Ok Scenario.success], []) with
  | Some (Some r) =>
      Forall (fun q => http.Header q !! "Accept"%string = Some ["application/json"%string])
        (sentRequests (snd (world r)))
  | _ => False
  end.
Proof.
  destruct (doJSON (journaled Scenario.offline) 2
              (recording (Scenario.withHook (refreshing Scenario.newToken)))
              Scenario.alice Scenario.getX None
              ([Ok Scenario.unauthorized; Ok Scenario.success], []))
    as [[r|]|] eqn:Hd.
  - exact (proj1 (doJSON_sends_accept _ _ _ _ _ _ _ _ Hd)).
  - discriminate Hd.
  - discriminate Hd.
Defined.

(** ** The response decoder *)

Lemma scan_blank (body : list byte) :
  forallb json.isSpace body = true -> json.readValue body = json.EOF.
Proof.
  unfold json.readValue. induction body as [|b body IH]; [reflexivity|].
  cbn [forallb json.scan json.step]. intros [Hb Hr]%andb_prop. rewrite Hb. now apply IH.
Qed.

(** X20.  The decode step always reads a JSON value from the body: when
    the body is empty or holds white space only, as after a response
    without content, the result is the error [EOF] of the decoder,
    whatever the status of the response and whatever the destination,
    which is left as it was. *)
Theorem blank_body_is_decoding_error (resp : http.Response) (d : Dest) :
  http.closed (http.RespBody resp) = false ->
  forallb json.isSpace (http.unread (http.RespBody resp)) = true ->
  decodeResponse resp d = (d, Some (ErrJSON "EOF")).
Proof.
  intros Hc Hb. unfold decodeResponse, Decode. now rewrite Hc, (scan_blank _ Hb).
Qed.

Lemma blank_body_is_decoding_error_witness :
  decodeResponse (Scenario.respond 204 (Scenario.bytes "  ")) (respDest resp.new)
  = (respDest resp.new, Some (ErrJSON "EOF")).
Proof.
  apply (blank_body_is_decoding_error (Scenario.respond 204 (Scenario.bytes "  "))
           (respDest resp.new)); reflexivity.
Defined.

(** X21.  A destination that does not implement [maybeError] never gives
    a typed API error of its own: the decode step succeeds exactly when
    the body is read and stored without error, also when the body is an
    error payload. *)
Theorem no_capability_no_api_error (resp : http.Response) (d : Dest) :
  dest_maybeError d = None ->
  (snd (decodeResponse resp d) = None
   <-> http.closed (http.RespBody resp) = false
       /\ exists v, json.readValue (http.unread (http.RespBody resp)) = json.Value v
                    /\ snd (@Unmarshal _ (dest_Unmarshaler d) v (pointee d)) = None).
Proof.
  intros Hd. unfold decodeResponse, Decode.
  destruct (http.closed (http.RespBody resp)).
  { split; [discriminate|intros [H _]; discriminate]. }
  destruct (json.readValue _) as [v| | |];
    try (split; [discriminate|intros (_ & v' & H & _); discriminate]).
  destruct (Unmarshal v (pointee d)) as [x [e|]] eqn:Hu; cbn [dest_maybeError].
  - split; [discriminate|]. intros (_ & v' & [= <-] & Hn). rewrite Hu in Hn. discriminate.
  - rewrite Hd. split; [|reflexivity]. intros _. split; [reflexivity|].
    exists v. split; [reflexivity|]. now rewrite Hu.
Qed.

Lemma no_capability_no_api_error_witness :
  snd (decodeResponse (Scenario.respond 401 Scenario.bodyInvalidToken)
         (anyDest json.JNull)) = None.
Proof.
  apply (no_capability_no_api_error (Scenario.respond 401 Scenario.bodyInvalidToken)
           (anyDest json.JNull) eq_refl).
  split; [reflexivity|]. eexists. split; [vm_compute; reflexivity|reflexivity].
Defined.

(** X22.  [doJSONWithCookies] does what [doJSON] does, with the same
    error and the same effects, and returns beside it the cookies of the
    response when there is no error and no cookie at all when there is
    one. *)
Theorem doJSONWithCookies_agrees_with_doJSON {E W : Type} (D : Transport W)
    (k : Collaborators E W) (fuel : nat) (c : Client E) (req : http.Request)
    (d : option Dest) (w : W) :
  doJSONWithCookies D fuel k c req d w
  = option_map (option_map (fun r => (cookiesOf r, r))) (doJSON D fuel k c req d w).
Proof.
  unfold doJSONWithCookies, doJSON.
  destruct (do D fuel k c _ w) as [[[resp|r e] c' req' w'|]|]; try reflexivity.
  unfold decodeResponse.
  destruct (Decode (http.RespBody resp) _) as [d' [e|]]; [reflexivity|].
  destruct (dest_maybeError d') as [M|]; [|reflexivity].
  destruct (Err (pointee d')); reflexivity.
Qed.

(** X23.  The members of the response object that select neither [Code]
    nor [Error] are ignored by the envelope: leaving one out changes
    neither the decoded envelope nor the decoding error. *)
Theorem unknown_members_ignored (ms1 ms2 : list (string * json.value))
    (m : string * json.value) (r : resp.t) :
  selectsCode m = false -> selectsError m = false ->
  resp.store (json.JObject (ms1 ++ m :: ms2)) r
  = resp.store (json.JObject (ms1 ++ ms2)) r.
Proof.
  intros HC HE. cbn [resp.store]. rewrite !fold_left_app. cbn [fold_left]. f_equal.
  destruct (fold_left resp.member ms1 (r, None)) as [r1 s1]. destruct m as [key v].
  unfold selectsCode, selectsError in *. cbn [fst] in *.
  unfold resp.member. now rewrite HC, HE.
Qed.

Lemma unknown_members_ignored_witness :
  resp.store (json.JObject [("Code"%string, json.JNumber "1000");
                            ("Data"%string, json.JArray []);
                            ("Error"%string, json.JString "x")]) resp.new
  = resp.store (json.JObject [("Code"%string, json.JNumber "1000");
                              ("Error"%string, json.JString "x")]) resp.new.
Proof.
  apply (unknown_members_ignored [("Code"%string, json.JNumber "1000")]
           [("Error"%string, json.JString "x")] ("Data"%string, json.JArray [])
           resp.new); reflexivity.
Defined.

Lemma parseInt64_range (lit : string) (n : Z) :
  json.parseInt64 lit = Some n -> - 2 ^ 63 <= n <= 2 ^ 63 - 1.
Proof.
  unfold json.parseInt64.
  destruct (match lit with
            | String "-"%char (String a r) => option_map Z.opp (json.digits 0 (String a r))
            | String _ _ => json.digits 0 lit
            | EmptyString => None
            end) as [z|]; [|discriminate].
  destruct ((- 2 ^ 63 <=? z) && (z <=? 2 ^ 63 - 1)) eqn:Hr; [|discriminate].
  intros [= <-]. apply andb_prop in Hr as [H1 H2]. lia.
Qed.

(** Storing a value keeps a code that is in the range of [int64] in that
    range. *)
Lemma store_Code_range (v : json.value) (r : resp.t) :
  - 2 ^ 63 <= resp.Code r <= 2 ^ 63 - 1 ->
  - 2 ^ 63 <= resp.Code (fst (resp.store v r)) <= 2 ^ 63 - 1.
Proof.
  intros Hr. destruct v; simpl; try exact Hr.
  generalize (@None error). revert r Hr.
  induction members as [|[key x] members IH]; intros r Hr saved; [exact Hr|].
  cbn [fold_left].
  destruct (resp.member (r, saved) (key, x)) as [r1 s1] eqn:Hm. apply IH.
  unfold resp.member in Hm.
  destruct (json.foldEq key "Code").
  - destruct x; try (injection Hm as <- _; exact Hr).
    destruct (json.parseInt64 lit) as [n|] eqn:Hn; injection Hm as <- _; [|exact Hr].
    simpl. now apply (parseInt64_range lit).
  - destruct (json.foldEq key "Error"); [|injection Hm as <- _; exact Hr].
    destruct x; injection Hm as <- _; exact Hr.
Qed.

Lemma hexdigit_unreserved (n : N) : url.shouldEscape (url.hexdigit n) = false.
Proof.
  unfold url.hexdigit.
  destruct (N.to_nat n) as [|m]; [reflexivity|].
  do 15 (destruct m as [|m]; [reflexivity|]).
  reflexivity.
Qed.

(** X25.  The value of the auth cookie is safe whatever the token holds:
    the escaped token is made of unreserved characters, [+] and [%]
    only, so that it holds no semicolon, equals sign, space, comma or
    quote, and the cookie sanitizer of the HTTP library leaves it as it
    is. *)
Theorem escaped_token_is_cookie_safe (s : string) :
  gostring.all escapedByte (url.QueryEscape s) = true
  /\ http.sanitizeCookieValue (url.QueryEscape s) = url.QueryEscape s.
Proof.
  split; [|apply sanitizeCookieValue_QueryEscape].
  induction s as [|a r IH]; [reflexivity|].
  cbn [url.QueryEscape].
  destruct (url.shouldEscape a) eqn:Ha.
  - destruct (gostring.code a =? 32)%N.
    + cbn [gostring.all]. now rewrite IH.
    + cbn [gostring.all]. unfold escapedByte at 2 3.
      rewrite !hexdigit_unreserved. now rewrite IH.
  - cbn [gostring.all]. unfold escapedByte at 1. rewrite Ha. now rewrite IH.
Qed.

(** ** The error string *)

Lemma to_int_not_nil (n : Z) :
  Z.to_int n <> Decimal.Pos Decimal.Nil /\ Z.to_int n <> Decimal.Neg Decimal.Nil.
Proof.
  split; intros H.
  - pose proof (DecimalZ.to_of (Z.to_int n)) as Hn.
    rewrite DecimalZ.of_to, H in Hn. discriminate Hn.
  - pose proof (DecimalZ.to_of (Z.to_int n)) as Hn.
    rewrite DecimalZ.of_to, H in Hn. discriminate Hn.
Qed.

Lemma Itoa_inj (n m : Z) : Itoa n = Itoa m -> n = m.
Proof.
  unfold Itoa. intros H.
  destruct (to_int_not_nil n) as [Hn1 Hn2]. destruct (to_int_not_nil m) as [Hm1 Hm2].
  pose proof (NilZero.isi (Z.to_int n) Hn1 Hn2) as In.
  pose proof (NilZero.isi (Z.to_int m) Hm1 Hm2) as Im.
  rewrite H, Im in In. injection In as In. now apply DecimalZ.to_int_inj.
Qed.

Lemma string_of_uint_notBracket (d : Decimal.uint) :
  gostring.all notBracket (NilEmpty.string_of_uint d) = true.
Proof. induction d; simpl; auto. Qed.

Lemma Itoa_notBracket (n : Z) : gostring.all notBracket (Itoa n) = true.
Proof.
  unfold Itoa, NilZero.string_of_int, NilZero.string_of_uint.
  destruct (Z.to_int n) as [d|d]; destruct d; simpl;
    try reflexivity; apply string_of_uint_notBracket.
Qed.

Lemma split_at_bracket (s1 : string) :
  forall (s2 r1 r2 : string),
    gostring.all notBracket s1 = true -> gostring.all notBracket s2 = true ->
    s1 +:+ String "]" r1 = s2 +:+ String "]" r2 ->
    s1 = s2 /\ r1 = r2.
Proof.
  induction s1 as [|a s1 IH]; intros [|b s2] r1 r2 H1 H2 Heq; simpl in *.
  - injection Heq as ->. now split.
  - injection Heq as <- _. discriminate H2.
  - injection Heq as -> _. discriminate H1.
  - injection Heq as -> Heq.
    apply andb_prop in H1 as [_ H1]. apply andb_prop in H2 as [_ H2].
    destruct (IH s2 r1 r2 H1 H2 Heq) as [-> ->]. now split.
Qed.

Lemma digits_uint_acc (d : Decimal.uint) :
  forall acc : positive,
    json.digits (Zpos acc) (NilEmpty.string_of_uint d)
    = Some (Zpos (Pos.of_uint_acc d acc)).
Proof.
  induction d; intros acc; cbn [NilEmpty.string_of_uint json.digits Pos.of_uint_acc];
    [reflexivity|..];
    (match goal with
     | |- context [gostring.between 48 57 ?a] =>
         change (gostring.between 48 57 a) with true; cbv iota
     end);
    rewrite <- IHd; f_equal; cbn; lia.
Qed.

Lemma digits_uint (d : Decimal.uint) :
  json.digits 0 (NilEmpty.string_of_uint d) = Some (Z.of_uint d).
Proof.
  unfold Z.of_uint.
  induction d; cbn [NilEmpty.string_of_uint json.digits Pos.of_uint];
    [reflexivity|..];
    (match goal with
     | |- context [gostring.between 48 57 ?a] =>
         change (gostring.between 48 57 a) with true; cbv iota
     end).
  - exact IHd.
  - apply (digits_uint_acc d 1).
  - apply (digits_uint_acc d 2).
  - apply (digits_uint_acc d 3).
  - apply (digits_uint_acc d 4).
  - apply (digits_uint_acc d 5).
  - apply (digits_uint_acc d 6).
  - apply (digits_uint_acc d 7).
  - apply (digits_uint_acc d 8).
  - apply (digits_uint_acc d 9).
Qed.

(** The literal of an integer, read back. *)
Lemma parseInt64_Itoa (n : Z) :
  json.parseInt64 (Itoa n)
  = if (- 2 ^ 63 <=? n) && (n <=? 2 ^ 63 - 1) then Some n else None.
Proof.
  assert (Hraw : match Itoa n with
                 | String "-"%char (String a r) =>
                     option_map Z.opp (json.digits 0 (String a r))
                 | String _ _ => json.digits 0 (Itoa n)
                 | EmptyString => None
                 end = Some n).
  { unfold Itoa. destruct (to_int_not_nil n) as [Hp Hn].
    pose proof (DecimalZ.of_to n) as Hof.
    destruct (Z.to_int n) as [d|d]; cbn [NilZero.string_of_int NilZero.string_of_uint].
    - cbn [Z.of_int] in Hof. rewrite <- Hof, <- (digits_uint d).
      destruct d; reflexivity.
    - cbn [Z.of_int] in Hof. rewrite <- Hof.
      destruct d; try (now contradiction Hn);
        (match goal with
         | |- context [NilZero.string_of_uint ?x] =>
             pose proof (digits_uint x) as Hd;
             cbn [NilZero.string_of_uint NilEmpty.string_of_uint] in *;
             rewrite Hd; reflexivity
         end). }
  unfold json.parseInt64. rewrite Hraw. reflexivity.
Qed.

(** X24.  The code of the envelope is a 64-bit integer.  A member that
    selects [Code] and holds the decimal numeral of [n] sets the code to
    [n] when [n] is in the range of [int64]; when it is not, the member is
    a decoding error and the code is left as it was.  Whatever value is
    stored, a code in the range stays in the range. *)
Theorem Code_member_fits_int64 (n : Z) (key : string) (r : resp.t) :
  json.foldEq key "Code" = true ->
  resp.store (json.JObject [(key, json.JNumber (Itoa n))]) r
  = (if (- 2 ^ 63 <=? n) && (n <=? 2 ^ 63 - 1)
     then ({| resp.Code := n; resp.RawAPIError := resp.RawAPIError r |}, None)
     else (r, Some resp.typeError))
  /\ (forall v, - 2 ^ 63 <= resp.Code r <= 2 ^ 63 - 1 ->
                - 2 ^ 63 <= resp.Code (fst (resp.store v r)) <= 2 ^ 63 - 1).
Proof.
  intros Hk. split; [|intros v; apply store_Code_range].
  cbn [resp.store fold_left]. unfold resp.member. rewrite Hk, parseInt64_Itoa.
  now destruct ((- 2 ^ 63 <=? n) && (n <=? 2 ^ 63 - 1)).
Qed.

Lemma Code_member_fits_int64_witness :
  resp.store (json.JObject [("code"%string, json.JNumber (Itoa 9223372036854775808))])
    resp.new
  = (resp.new, Some resp.typeError)
  /\ resp.store (json.JObject [("code"%string, json.JNumber (Itoa (-1000)))]) resp.new
     = ({| resp.Code := -1000; resp.RawAPIError := None |}, None).
Proof.
  split.
  - exact (proj1 (Code_member_fits_int64 9223372036854775808 "code" resp.new eq_refl)).
  - exact (proj1 (Code_member_fits_int64 (-1000) "code" resp.new eq_refl)).
Defined.

(** X26.  The string of an API error, [[code] message], tells the error:
    two API errors with the same string have the same code and the same
    message. *)
Theorem APIError_Error_inj (e1 e2 : APIError.t) :
  APIError_Error e1 = APIError_Error e2 -> e1 = e2.
Proof.
  destruct e1 as [c1 m1], e2 as [c2 m2]. unfold APIError_Error. simpl.
  intros [= H].
  apply split_at_bracket in H as [Hc Hm]; try apply Itoa_notBracket.
  apply Itoa_inj in Hc. injection Hm as ->. now subst.
Qed.

Lemma APIError_Error_inj_witness :
  APIError_Error {| APIError.Code := 401; APIError.Message := "invalid token" |}
  = "[401] invalid token"%string
  /\ {| APIError.Code := 401; APIError.Message := "invalid token" |}
     = {| APIError.Code := 401; APIError.Message := "invalid token" |}.
Proof.
  split; [reflexivity|].
  apply (APIError_Error_inj _ _ eq_refl).
Defined.

(** ** Sending and decoding together *)

Lemma retryGuard_Accept (hook : bool) (resp : http.Response) (req : http.Request) :
  retryGuard hook resp (http.Request_SetHeader req "Accept" "application/json")
  = retryGuard hook resp req.
Proof.
  unfold retryGuard, hasAuth, canRetry. simpl.
  now rewrite Header_lookup_Set_ne by discriminate.
Qed.

(** X19.  A response that is not retried, whatever its status, is decoded
    by [doJSON]: the error of the call is the error of the decode step on
    that response, so that an unauthorized response that fails the guard
    comes out as the typed API error of its body.  The body of the
    response is closed when the call returns, and the client is as it
    was. *)
Theorem unretried_response_is_decoded {E W : Type} (D : Transport W)
    (k : Collaborators E W) (c : Client E) (req : http.Request) (d : option Dest)
    (w w1 : W) (resp : http.Response) (fuel : nat) :
  let req1 := http.Request_SetHeader req "Accept" "application/json" in
  let d0 := match d with Some x => x | None => respDest resp.new end in
  httpClient D k req1 w = (Ok resp, w1) ->
  retryGuard (hookConfigured k) resp req = false ->
  exists r,
    doJSON D (S fuel) k c req d w = Some (Some r)
    /\ err r = snd (decodeResponse resp d0)
    /\ respData r = fst (decodeResponse resp d0)
    /\ response r = Some (http.CloseBody resp)
    /\ client r = c /\ request r = req1 /\ world r = w1.
Proof.
  intros req1 d0 H G. unfold doJSON. fold req1. fold d0.
  rewrite <- retryGuard_Accept in G. fold req1 in G.
  cbn [do]. rewrite (attempt_no_retry D k c req1 w resp w1 H G).
  destruct (decodeResponse resp d0) as [d' e]. eexists. split; [reflexivity|].
  now repeat split.
Qed.

Lemma unretried_response_is_decoded_witness :
  exists r,
    doJSON Scenario.offline 1 Scenario.withoutHook Scenario.alice Scenario.getX None
      [Ok Scenario.unauthorized] = Some (Some r)
    /\ err r = Some (ErrAPI {| APIError.Code := 401; APIError.Message := "invalid token" |})
    /\ client r = Scenario.alice.
Proof.
  destruct (unretried_response_is_decoded Scenario.offline Scenario.withoutHook
              Scenario.alice Scenario.getX None [Ok Scenario.unauthorized] []
              Scenario.unauthorized 0 eq_refl eq_refl)
    as (r & H1 & H2 & _ & _ & H5 & _).
  exists r. split; [exact H1|]. split; [|exact H5].
  rewrite H2. vm_compute. reflexivity.
Defined.

(** X27.  When the hook fails, [doJSON] returns the error of the hook:
    nothing is decoded, the destination is as it was, the response that
    was refused is closed, and the client is the one the hook left. *)
Theorem doJSON_returns_hook_error {E W : Type} (D : Transport W)
    (k : Collaborators E W) (c c2 : Client E) (req : http.Request) (d : option Dest)
    (w w1 w2 : W) (resp : http.Response) (h : Hook E W) (e : error) (fuel : nat) :
  let req1 := http.Request_SetHeader req "Accept" "application/json" in
  let d0 := match d with Some x => x | None => respDest resp.new end in
  httpClient D k req1 w = (Ok resp, w1) ->
  retryGuard (hookConfigured k) resp req = true ->
  ReAuth k = Some h ->
  h (set_accessToken c EmptyString) w1 = (Some e, c2, w2) ->
  doJSON D (S fuel) k c req d w
  = Some (Some (mkDecoded (Some e) d0 (Some (http.CloseBody resp)) c2 req1 w2)).
Proof.
  intros req1 d0 H G Hk Hh. unfold doJSON. fold req1. fold d0.
  rewrite <- retryGuard_Accept in G. fold req1 in G.
  cbn [do]. now rewrite (attempt_retry D k c req1 w resp w1 h (Some e) c2 w2 H G Hk Hh).
Qed.

Lemma doJSON_returns_hook_error_witness :
  let e := ErrExternal "refresh failed" in
  option_map (option_map err)
    (doJSON Scenario.offline 1 (Scenario.withHook (failing e)) Scenario.alice
       Scenario.getX None [Ok Scenario.unauthorized])
  = Some (Some (Some e)).
Proof.
  intros e.
  rewrite (doJSON_returns_hook_error Scenario.offline (Scenario.withHook (failing e))
             Scenario.alice (set_accessToken Scenario.alice EmptyString) Scenario.getX
             None [Ok Scenario.unauthorized] [] [] Scenario.unauthorized (failing e) e 0
             eq_refl eq_refl eq_refl eq_refl).
  reflexivity.
Defined.
